(** * Meta-protocol proxy: router, route matcher and local rate limiter

    A shallow embedding of the request-processing engine of the
    meta-protocol proxy, and the properties its specification states
    about it.

    - upstream_request.cc: the upstream-request state machine
      ([UpstreamRequestBase], [UpstreamRequest], [UpstreamRequestByHandler]);
    - router.h: [RequestOwner::prepareUpstreamRequest];
    - route_matcher_impl.h: the data of a route entry and of its weighted
      clusters; the selection of a cluster is defined in
      route_matcher_impl.cc and is modelled from the specification;
    - local_ratelimit_impl.h: the data of the local rate limiter; the
      admission of a request is defined in local_ratelimit_impl.cc and is
      modelled from the specification.

    Every C++ method is a computation in a small monad [M S]: it reads and
    writes the fields of the object (state [S]), may abort ([Fault]: a
    failed ASSERT, a PANIC, a null dereference) and emits the calls it
    makes on its collaborators (the owning [RequestOwner], the connection,
    the pool handle, the outlier detector), each paired with a snapshot of
    the object at the moment of the call.

    Conventions:
    - the collaborators are interfaces whose implementations are not part
      of this development: a call on one of them is recorded, and it does
      not call back into the request before it returns;
    - the host and the connection data a pool callback receives are not
      null, as the connection pool guarantees; fields that hold pointers
      are options;
    - logging is left out. *)

From stdpp Require Import gmap strings list fin_maps.
From Stdlib Require Import NArith Lia.

Local Open Scope string_scope.
Local Open Scope list_scope.

(** ** Collaborator data *)

(** codec.h: the message types of a meta-protocol message. *)
Inductive MessageType :=
  | Request | Response | Oneway | Stream_Init | Stream_Data | Stream_Close
  | Heartbeat.

(** envoy/tcp/conn_pool.h *)
Inductive PoolFailureReason :=
  | Overflow | LocalConnectionFailure | RemoteConnectionFailure | Timeout.

Inductive CancelPolicy := Default | CloseExcess.

(** envoy/network/connection.h *)
Inductive ConnectionEvent :=
  | RemoteClose | LocalClose | Connected | ConnectedZeroRtt.

Inductive ConnectionCloseType := FlushWrite | NoFlush | FlushWriteAndDelay.

(** envoy/upstream/outlier_detection.h (the results the router reports). *)
Inductive OutlierResult :=
  | LocalOriginConnectFailed | LocalOriginTimeout | LocalOriginConnectSuccess.

(** filter_define.h *)
Inductive FilterStatus :=
  | ContinueIteration | PauseIteration | StopIteration | Retry.

(** app_exception.h *)
Inductive ErrorType :=
  | RouteNotFound | ClusterNotFound | NoHealthyUpstream | BadResponse
  | Unspecified | OverLimit.

Record Error := { error_type : ErrorType; error_message : string }.

(** [AppException(Error{..})]: a direct response carrying an error. *)
Record AppException := { exception_error : Error }.

Definition Buffer := list Byte.byte.

(** A mutation is the list of (key, value) pairs to splice in at encode. *)
Definition Mutation := list (string * string).

(** [Metadata]: the message type, the string properties written with
    [putString] and the bytes of the original frame. *)
Record Metadata := {
  message_type : MessageType;
  properties : gmap string string;
  origin_message : Buffer
}.

Definition getMessageType (m : Metadata) : MessageType := message_type m.

Definition putString (k v : string) (m : Metadata) : Metadata :=
  {| message_type := message_type m;
     properties := <[k := v]> (properties m);
     origin_message := origin_message m |}.

Definition getString (k : string) (m : Metadata) : option string :=
  properties m !! k.

(** [Upstream::HostDescription], by its address. *)
Record Host := { host_address : string }.

(** [Tcp::ConnectionPool::ConnectionData]: the pooled connection, by an
    identity and the remote address of its connection-info provider. *)
Record ConnectionData := { conn_id : nat; remote_address : string }.

(** [Tcp::ConnectionPool::Cancellable] *)
Record Handle := { handle_id : nat }.

(** [Codec::encode(metadata, mutation, buffer)] rewrites the buffer. *)
Definition Codec := Metadata → Mutation → Buffer → Buffer.

(** The calls a request makes on its collaborators. *)
Inductive Call :=
  | ParentOnUpstreamHostSelected (host : Host)
  | ParentContinueDecoding
  | ParentSendLocalReply (response : AppException) (end_stream : bool)
  | ParentResetStream
  | ParentSetUpstreamConnection (conn : option ConnectionData)
  | ParentCreateCodec
  | ParentUpstreamCallbacks
  | HandleCancel (handle : Handle) (policy : CancelPolicy)
  | ConnAddUpstreamCallbacks (conn : ConnectionData)
  | ConnWrite (conn : ConnectionData) (data : Buffer) (end_stream : bool)
  | ConnClose (conn : ConnectionData) (type : ConnectionCloseType)
  | OutlierPutResult (host : Host) (result : OutlierResult)
  | HandlerAddUpsteamRequestCallbacks
  | HandlerRemoveUpsteamRequestCallbacks
  | HandlerOnData (data : Buffer) (end_stream : bool).

Definition isContinueDecoding (c : Call) : bool :=
  match c with ParentContinueDecoding => true | _ => false end.

Definition isSendLocalReply (c : Call) : bool :=
  match c with ParentSendLocalReply _ _ => true | _ => false end.

Definition isResetStream (c : Call) : bool :=
  match c with ParentResetStream => true | _ => false end.

Definition isPutResult (c : Call) : bool :=
  match c with OutlierPutResult _ _ => true | _ => false end.

Definition isAddUpstreamCallbacks (c : Call) : bool :=
  match c with ConnAddUpstreamCallbacks _ => true | _ => false end.

Definition isHandleCancel (c : Call) : bool :=
  match c with HandleCancel _ _ => true | _ => false end.

Definition isConnClose (c : Call) : bool :=
  match c with ConnClose _ _ => true | _ => false end.

Definition isConnWrite (c : Call) : bool :=
  match c with ConnWrite _ _ _ => true | _ => false end.

Definition isHandlerOnData (c : Call) : bool :=
  match c with HandlerOnData _ _ => true | _ => false end.

Definition isHandlerCall (c : Call) : bool :=
  match c with
  | HandlerAddUpsteamRequestCallbacks
  | HandlerRemoveUpsteamRequestCallbacks
  | HandlerOnData _ _ => true
  | _ => false
  end.

(** The calls made before the first one that satisfies [p]. *)
Fixpoint callsBefore (p : Call → bool) (cs : list Call) : list Call :=
  match cs with
  | [] => []
  | c :: cs' => if p c then [] else c :: callsBefore p cs'
  end.

(** The calls made after the first one that satisfies [p]. *)
Fixpoint callsAfter (p : Call → bool) (cs : list Call) : list Call :=
  match cs with
  | [] => []
  | c :: cs' => if p c then cs' else callsAfter p cs'
  end.

(** ** The method monad *)

Inductive Fault := AssertFailure | NotReached | NullPointer.

(** A method on an object of type [S]: a fault, or a result with the new
    object and the calls made, oldest first, each with the object as it
    was when the call was made. *)
Definition M (S A : Type) : Type := S → Fault + (A * S * list (Call * S)).

Global Instance M_ret {S} : MRet (M S) := λ A a s, inr (a, s, []).

Global Instance M_bind {S} : MBind (M S) := λ A B f m s,
  match m s with
  | inl e => inl e
  | inr (a, s1, l1) =>
      match f a s1 with
      | inl e => inl e
      | inr (b, s2, l2) => inr (b, s2, l1 ++ l2)
      end
  end.

Definition gets {S A} (f : S → A) : M S A := λ s, inr (f s, s, []).
Definition modify {S} (f : S → S) : M S () := λ s, inr ((), f s, []).
Definition call {S} (c : Call) : M S () := λ s, inr ((), s, [(c, s)]).
Definition fault {S A} (e : Fault) : M S A := λ _, inl e.

(** [ASSERT(c)], as a build that compiles assertions in checks it. A
    release build compiles it out and runs on: the properties of a method
    that asserts are stated where the asserted condition holds, or so
    that they do not depend on it. *)
Definition ASSERT {S} (c : bool) : M S () :=
  if c then mret () else fault AssertFailure.

(** [p->...]: dereference of a pointer field. *)
Definition deref {S A} (f : S → option A) : M S A := λ s,
  match f s with
  | Some a => inr (a, s, [])
  | None => inl NullPointer
  end.

Definition when {S} (c : bool) (m : M S ()) : M S () :=
  if c then m else mret ().

(** A method of a base class run on a derived object: [get] projects the
    base sub-object and [set] puts it back. *)
Definition liftM {S T A} (get : T → S) (set : S → T → T) (m : M S A)
  : M T A := λ t,
  match m (get t) with
  | inl e => inl e
  | inr (a, s, l) => inr (a, set s t, (λ '(c, s'), (c, set s' t)) <$> l)
  end.

(** The calls of a log, without the snapshots. *)
Definition calls {S} (l : list (Call * S)) : list Call := fst <$> l.

(** How many calls of a log satisfy [p]. *)
Definition count {S} (p : Call → bool) (l : list (Call * S)) : nat :=
  length (List.filter p (calls l)).

Definition MessageType_eqb (a b : MessageType) : bool :=
  match a, b with
  | Request, Request | Response, Response | Oneway, Oneway
  | Stream_Init, Stream_Init | Stream_Data, Stream_Data
  | Stream_Close, Stream_Close | Heartbeat, Heartbeat => true
  | _, _ => false
  end.

Definition PoolFailureReason_eqb (a b : PoolFailureReason) : bool :=
  match a, b with
  | Overflow, Overflow | LocalConnectionFailure, LocalConnectionFailure
  | RemoteConnectionFailure, RemoteConnectionFailure | Timeout, Timeout =>
      true
  | _, _ => false
  end.

(** ** UpstreamRequestBase *)

Module UpstreamRequestBase.

Record t := {
  createCodec : Codec;  (* what [parent_.createCodec()] returns *)
  metadata_ : Metadata;
  mutation_ : Mutation;
  upstream_request_buffer_ : Buffer;
  upstream_host_ : option Host;
  request_complete_ : bool;
  response_started_ : bool;
  response_complete_ : bool;
  stream_reset_ : bool
}.

Definition set_metadata_ (v : Metadata) (r : t) : t :=
  {| createCodec := createCodec r; metadata_ := v;
     mutation_ := mutation_ r;
     upstream_request_buffer_ := upstream_request_buffer_ r;
     upstream_host_ := upstream_host_ r;
     request_complete_ := request_complete_ r;
     response_started_ := response_started_ r;
     response_complete_ := response_complete_ r;
     stream_reset_ := stream_reset_ r |}.

Definition set_upstream_request_buffer_ (v : Buffer) (r : t) : t :=
  {| createCodec := createCodec r; metadata_ := metadata_ r;
     mutation_ := mutation_ r;
     upstream_request_buffer_ := v;
     upstream_host_ := upstream_host_ r;
     request_complete_ := request_complete_ r;
     response_started_ := response_started_ r;
     response_complete_ := response_complete_ r;
     stream_reset_ := stream_reset_ r |}.

Definition set_upstream_host_ (v : option Host) (r : t) : t :=
  {| createCodec := createCodec r; metadata_ := metadata_ r;
     mutation_ := mutation_ r;
     upstream_request_buffer_ := upstream_request_buffer_ r;
     upstream_host_ := v;
     request_complete_ := request_complete_ r;
     response_started_ := response_started_ r;
     response_complete_ := response_complete_ r;
     stream_reset_ := stream_reset_ r |}.

Definition set_request_complete_ (v : bool) (r : t) : t :=
  {| createCodec := createCodec r; metadata_ := metadata_ r;
     mutation_ := mutation_ r;
     upstream_request_buffer_ := upstream_request_buffer_ r;
     upstream_host_ := upstream_host_ r;
     request_complete_ := v;
     response_started_ := response_started_ r;
     response_complete_ := response_complete_ r;
     stream_reset_ := stream_reset_ r |}.

Definition set_response_complete_ (v : bool) (r : t) : t :=
  {| createCodec := createCodec r; metadata_ := metadata_ r;
     mutation_ := mutation_ r;
     upstream_request_buffer_ := upstream_request_buffer_ r;
     upstream_host_ := upstream_host_ r;
     request_complete_ := request_complete_ r;
     response_started_ := response_started_ r;
     response_complete_ := v;
     stream_reset_ := stream_reset_ r |}.

Definition set_stream_reset_ (v : bool) (r : t) : t :=
  {| createCodec := createCodec r; metadata_ := metadata_ r;
     mutation_ := mutation_ r;
     upstream_request_buffer_ := upstream_request_buffer_ r;
     upstream_host_ := upstream_host_ r;
     request_complete_ := request_complete_ r;
     response_started_ := response_started_ r;
     response_complete_ := response_complete_ r;
     stream_reset_ := v |}.

(** The constructor: the four flags start false and the original frame
    is moved out of the metadata into the request buffer. *)
Definition new (codec : Codec) (metadata : Metadata) (mutation : Mutation)
  : t :=
  {| createCodec := codec;
     metadata_ := {| message_type := message_type metadata;
                     properties := properties metadata;
                     origin_message := [] |};
     mutation_ := mutation;
     upstream_request_buffer_ := origin_message metadata;
     upstream_host_ := None;
     request_complete_ := false;
     response_started_ := false;
     response_complete_ := false;
     stream_reset_ := false |}.

Definition onUpstreamHostSelected (host : Host) : M t () :=
  modify (set_upstream_host_ (Some host)).

Definition onRequestStart (continue_decoding : bool) : M t () :=
  when continue_decoding (call ParentContinueDecoding).

(** Modelled from the spec: [onRequestComplete] is defined in
    upstream_request.h, which is not among the sources; the spec lists
    [request_complete] among the four flags of an upstream request, and
    this is the method that raises it. *)
Definition onRequestComplete : M t () :=
  modify (set_request_complete_ true).

Definition sendLocalReply (message : string) : M t () :=
  call (ParentSendLocalReply
          {| exception_error :=
               {| error_type := Unspecified; error_message := message |} |}
          false).

Definition onUpstreamConnectionReset (reason : PoolFailureReason)
  : M t () :=
  mt ← gets (λ r, getMessageType (metadata_ r));
  if MessageType_eqb mt Oneway then
    call ParentResetStream
  else
    match reason with
    | Overflow =>
        sendLocalReply
          "meta protocol upstream request: too many connections"
    | LocalConnectionFailure =>
        host ← deref upstream_host_;
        sendLocalReply
          ("meta protocol upstream request: local connection failure '"
             +:+ host_address host +:+ "'")
    | RemoteConnectionFailure =>
        host ← deref upstream_host_;
        sendLocalReply
          ("meta protocol upstream request: remote connection failure '"
             +:+ host_address host +:+ "'")
    | Timeout =>
        host ← deref upstream_host_;
        sendLocalReply
          ("meta protocol upstream request: connection failure '"
             +:+ host_address host +:+ "' due to timeout")
    end ;;
    response_complete ← gets response_complete_;
    when (negb response_complete) (call ParentResetStream).

Definition onUpstreamConnectionEvent (event : ConnectionEvent) : M t () :=
  response_complete ← gets response_complete_;
  ASSERT (negb response_complete) ;;
  match event with
  | RemoteClose =>
      onUpstreamConnectionReset RemoteConnectionFailure ;;
      host ← deref upstream_host_;
      call (OutlierPutResult host LocalOriginConnectFailed)
  | LocalClose =>
      onUpstreamConnectionReset LocalConnectionFailure
  | _ => fault NotReached
  end.

End UpstreamRequestBase.

(** ** UpstreamRequest *)

(** What [conn_pool_.newConnection(callbacks)] does: it returns a handle
    when the connection is acquired asynchronously; otherwise it has
    already called [onPoolReady] or [onPoolFailure] on the callbacks and
    returns null. *)
Inductive NewConnection :=
  | PoolPending (handle : Handle)
  | PoolReadySync (conn_data : ConnectionData) (host : Host)
  | PoolFailureSync (reason : PoolFailureReason) (host : Host).

Module UpstreamRequest.

Record t := {
  base : UpstreamRequestBase.t;
  conn_pool_handle_ : option Handle;
  conn_data_ : option ConnectionData
}.

Definition set_base (v : UpstreamRequestBase.t) (r : t) : t :=
  {| base := v; conn_pool_handle_ := conn_pool_handle_ r;
     conn_data_ := conn_data_ r |}.

Definition set_conn_pool_handle_ (v : option Handle) (r : t) : t :=
  {| base := base r; conn_pool_handle_ := v; conn_data_ := conn_data_ r |}.

Definition set_conn_data_ (v : option ConnectionData) (r : t) : t :=
  {| base := base r; conn_pool_handle_ := conn_pool_handle_ r;
     conn_data_ := v |}.

Definition Base {A} (m : M UpstreamRequestBase.t A) : M t A :=
  liftM base set_base m.

Definition metadata_ (r : t) : Metadata :=
  UpstreamRequestBase.metadata_ (base r).

Definition new (codec : Codec) (metadata : Metadata) (mutation : Mutation)
  : t :=
  {| base := UpstreamRequestBase.new codec metadata mutation;
     conn_pool_handle_ := None;
     conn_data_ := None |}.

Definition releaseUpStreamConnection (close : bool) : M t () :=
  Base (modify (UpstreamRequestBase.set_stream_reset_ true)) ;;
  handle ← gets conn_pool_handle_;
  match handle with
  | Some h =>
      conn_data ← gets conn_data_;
      ASSERT (bool_decide (conn_data = None)) ;;
      call (HandleCancel h Default) ;;
      modify (set_conn_pool_handle_ None)
  | None => mret ()
  end ;;
  (* conn_data = std::move(conn_data_) *)
  conn_data ← gets conn_data_;
  modify (set_conn_data_ None) ;;
  match conn_data with
  | Some c => when close (call (ConnClose c NoFlush))
  | None => mret ()
  end.

(** [encodeData(data)] is only ever called on
    [upstream_request_buffer_], which [data] aliases. *)
Definition encodeData : M t () :=
  conn_data ← gets conn_data_;
  ASSERT (bool_decide (is_Some conn_data)) ;;
  handle ← gets conn_pool_handle_;
  ASSERT (bool_decide (handle = None)) ;;
  call ParentCreateCodec ;;
  Base (modify (λ b,
    UpstreamRequestBase.set_upstream_request_buffer_
      (UpstreamRequestBase.createCodec b
         (UpstreamRequestBase.metadata_ b)
         (UpstreamRequestBase.mutation_ b)
         (UpstreamRequestBase.upstream_request_buffer_ b)) b)) ;;
  c ← deref conn_data_;
  data ← gets (λ r, UpstreamRequestBase.upstream_request_buffer_ (base r));
  call (ConnWrite c data false) ;;
  (* Connection::write drains the buffer it is given *)
  Base (modify (UpstreamRequestBase.set_upstream_request_buffer_ [])).

Definition onPoolFailure (reason : PoolFailureReason) (host : Host)
  : M t () :=
  call (ParentOnUpstreamHostSelected host) ;;
  modify (set_conn_pool_handle_ None) ;;
  (* Mimic an upstream reset. *)
  Base (UpstreamRequestBase.onUpstreamHostSelected host) ;;
  Base (UpstreamRequestBase.onUpstreamConnectionReset reason) ;;
  Base (modify (UpstreamRequestBase.set_upstream_request_buffer_ [])) ;;
  when (PoolFailureReason_eqb reason Timeout
        || PoolFailureReason_eqb reason LocalConnectionFailure
        || PoolFailureReason_eqb reason RemoteConnectionFailure)
    ((if PoolFailureReason_eqb reason Timeout then
        call (OutlierPutResult host LocalOriginTimeout)
      else if PoolFailureReason_eqb reason RemoteConnectionFailure then
        call (OutlierPutResult host LocalOriginConnectFailed)
      else mret ()) ;;
     call ParentContinueDecoding).

Definition onResponseComplete : M t () :=
  Base (modify (UpstreamRequestBase.set_response_complete_ true)) ;;
  modify (set_conn_data_ None).

Section WithReservedHeaders.

(** [ReservedHeaders::RealServerAddress], a constant of codec.h. *)
Variable RealServerAddress : string.

Definition onPoolReady (conn_data : ConnectionData) (host : Host)
  : M t () :=
  call (ParentOnUpstreamHostSelected host) ;;
  continue_decoding ←
    gets (λ r, bool_decide (conn_pool_handle_ r ≠ None));
  Base (UpstreamRequestBase.onUpstreamHostSelected host) ;;
  call (OutlierPutResult host LocalOriginConnectSuccess) ;;
  modify (set_conn_data_ (Some conn_data)) ;;
  mt ← gets (λ r, getMessageType (metadata_ r));
  when (MessageType_eqb mt Request)
    (c ← deref conn_data_;
     call ParentUpstreamCallbacks ;;
     call (ConnAddUpstreamCallbacks c)) ;;
  modify (set_conn_pool_handle_ None) ;;
  c ← deref conn_data_;
  Base (modify (λ b,
    UpstreamRequestBase.set_metadata_
      (putString RealServerAddress (remote_address c)
         (UpstreamRequestBase.metadata_ b)) b)) ;;
  Base (UpstreamRequestBase.onRequestStart continue_decoding) ;;
  encodeData ;;
  mt ← gets (λ r, getMessageType (metadata_ r));
  when (MessageType_eqb mt Stream_Init)
    (call ParentResetStream ;;
     (* the argument std::move(conn_data_) empties the member *)
     moved ← gets conn_data_;
     modify (set_conn_data_ None) ;;
     call (ParentSetUpstreamConnection moved)) ;;
  Base UpstreamRequestBase.onRequestComplete.

Definition start (pool : NewConnection) : M t FilterStatus :=
  match pool with
  | PoolPending handle =>
      modify (set_conn_pool_handle_ (Some handle)) ;;
      mret PauseIteration
  | PoolReadySync conn_data host =>
      onPoolReady conn_data host ;;
      mret ContinueIteration
  | PoolFailureSync reason host =>
      onPoolFailure reason host ;;
      mret ContinueIteration
  end.

(** The entry points of an upstream request after [start]: the pool
    callbacks, the connection events delivered through the owner, and
    the owner's own calls. *)
Inductive Op :=
  | OnPoolReady (conn_data : ConnectionData) (host : Host)
  | OnPoolFailure (reason : PoolFailureReason) (host : Host)
  | ReleaseUpStreamConnection (close : bool)
  | OnResponseComplete
  | OnUpstreamConnectionEvent (event : ConnectionEvent)
  | EncodeData.

Definition run (op : Op) : M t () :=
  match op with
  | OnPoolReady conn_data host => onPoolReady conn_data host
  | OnPoolFailure reason host => onPoolFailure reason host
  | ReleaseUpStreamConnection close => releaseUpStreamConnection close
  | OnResponseComplete => onResponseComplete
  | OnUpstreamConnectionEvent event =>
      Base (UpstreamRequestBase.onUpstreamConnectionEvent event)
  | EncodeData => encodeData
  end.

(** The states an upstream request can be in: it is constructed,
    started once, and then driven through its entry points; a fault
    ends the run. *)
Inductive reachable : t → Prop :=
  | reachable_start codec metadata mutation pool status r log :
      start pool (new codec metadata mutation) = inr (status, r, log) →
      reachable r
  | reachable_run r op r' log :
      reachable r →
      run op r = inr ((), r', log) →
      reachable r'.

End WithReservedHeaders.

(** At most one of the pool handle and the connection data is held. *)
Definition exclusive (r : t) : Prop :=
  ¬ (is_Some (conn_pool_handle_ r) ∧ is_Some (conn_data_ r)).

(** The calls [releaseUpStreamConnection] is to make: the cancellation
    of a pending handle, then the close of a held connection if asked. *)
Definition releaseCalls (close : bool) (r : t) : list Call :=
  match conn_pool_handle_ r with
  | Some handle => [HandleCancel handle Default]
  | None => []
  end ++
  match conn_data_ r with
  | Some conn => if close then [ConnClose conn NoFlush] else []
  | None => []
  end.

(** A request that holds connection data has its upstream host set. *)
Definition connectedHasHost (r : t) : Prop :=
  is_Some (conn_data_ r) →
  is_Some (UpstreamRequestBase.upstream_host_ (base r)).

End UpstreamRequest.

(** ** UpstreamRequestByHandler *)

Module UpstreamRequestByHandler.

(** [upstream_handler_] is a collaborator: what it is asked
    ([isPoolReady]) is an argument and what it is told is a call. *)
Record t := { base : UpstreamRequestBase.t }.

Definition set_base (v : UpstreamRequestBase.t) (r : t) : t :=
  {| base := v |}.

Definition Base {A} (m : M UpstreamRequestBase.t A) : M t A :=
  liftM base set_base m.

Definition new (codec : Codec) (metadata : Metadata) (mutation : Mutation)
  : t :=
  {| base := UpstreamRequestBase.new codec metadata mutation |}.

Definition onPoolFailure (reason : PoolFailureReason) (host : Host)
  : M t () :=
  call (ParentOnUpstreamHostSelected host) ;;
  (* Mimic an upstream reset. *)
  Base (UpstreamRequestBase.onUpstreamHostSelected host) ;;
  Base (UpstreamRequestBase.onUpstreamConnectionReset reason) ;;
  Base (modify (UpstreamRequestBase.set_upstream_request_buffer_ [])) ;;
  when (PoolFailureReason_eqb reason Timeout
        || PoolFailureReason_eqb reason LocalConnectionFailure
        || PoolFailureReason_eqb reason RemoteConnectionFailure)
    (call ParentContinueDecoding).

(** The handler's [onData] takes the request buffer by reference; what
    it leaves in it is the handler's business and is not modelled. *)
Definition encodeData : M t () :=
  call ParentCreateCodec ;;
  Base (modify (λ b,
    UpstreamRequestBase.set_upstream_request_buffer_
      (UpstreamRequestBase.createCodec b
         (UpstreamRequestBase.metadata_ b)
         (UpstreamRequestBase.mutation_ b)
         (UpstreamRequestBase.upstream_request_buffer_ b)) b)) ;;
  data ← gets (λ r, UpstreamRequestBase.upstream_request_buffer_ (base r));
  call (HandlerOnData data false).

Definition onPoolReady (host : Host) : M t () :=
  call (ParentOnUpstreamHostSelected host) ;;
  Base (UpstreamRequestBase.onUpstreamHostSelected host) ;;
  Base (UpstreamRequestBase.onRequestStart true) ;;
  encodeData ;;
  Base UpstreamRequestBase.onRequestComplete.

Definition start (isPoolReady : bool) : M t FilterStatus :=
  if isPoolReady then
    encodeData ;;
    mret ContinueIteration
  else
    call HandlerAddUpsteamRequestCallbacks ;;
    mret PauseIteration.

Definition releaseUpStreamConnection (close : bool) : M t () :=
  call HandlerRemoveUpsteamRequestCallbacks.

End UpstreamRequestByHandler.

(** ** RequestOwner (router.h) *)

Module RequestOwner.

(** [Upstream::TcpPoolData], by an identity. *)
Record TcpPoolData := { pool_id : nat }.

(** [Upstream::LoadBalancerContext*]: a possibly null pointer. *)
Definition LoadBalancerContext := option nat.

Inductive ResourcePriority := PriorityDefault | PriorityHigh.

(** [Upstream::ClusterInfo] *)
Record ClusterInfo := { name : string; maintenanceMode : bool }.

(** [Upstream::ThreadLocalCluster] *)
Record ThreadLocalCluster := {
  info : ClusterInfo;
  tcpConnPool :
    ResourcePriority → LoadBalancerContext → option TcpPoolData
}.

(** [Upstream::ClusterManager] *)
Record ClusterManager := {
  getThreadLocalCluster : string → option ThreadLocalCluster
}.

Record t := {
  cluster_ : option ClusterInfo;
  cluster_manager_ : ClusterManager
}.

Definition set_cluster_ (v : option ClusterInfo) (o : t) : t :=
  {| cluster_ := v; cluster_manager_ := cluster_manager_ o |}.

Record PrepareUpstreamRequestResult := {
  exception : option AppException;
  conn_pool_data : option TcpPoolData;
  response_code_detail : string
}.

Definition prepareUpstreamRequest (cluster_name : string) (request_id : N)
    (lb_context : LoadBalancerContext) (o : t)
  : PrepareUpstreamRequestResult * t :=
  match getThreadLocalCluster (cluster_manager_ o) cluster_name with
  | None =>
      ({| exception := Some
            {| exception_error :=
                 {| error_type := ClusterNotFound;
                    error_message :=
                      "meta protocol router: unknown cluster '"
                        +:+ cluster_name +:+ "'" |} |};
          conn_pool_data := None;
          response_code_detail := "unknown_cluster" |}, o)
  | Some cluster =>
      let o := set_cluster_ (Some (info cluster)) o in
      if maintenanceMode (info cluster) then
        ({| exception := Some
              {| exception_error :=
                   {| error_type := Unspecified;
                      error_message :=
                        "meta protocol router: maintenance mode for cluster '"
                          +:+ cluster_name +:+ "'" |} |};
            conn_pool_data := None;
            response_code_detail := "cluster_in_maintenance_mode" |}, o)
      else
        match tcpConnPool cluster PriorityDefault lb_context with
        | None =>
            ({| exception := Some
                  {| exception_error :=
                       {| error_type := NoHealthyUpstream;
                          error_message :=
                            "meta protocol router: no healthy upstream for '"
                              +:+ cluster_name +:+ "'" |} |};
                conn_pool_data := None;
                response_code_detail := "no_healthy_upstream" |}, o)
        | Some pool =>
            ({| exception := None;
                conn_pool_data := Some pool;
                response_code_detail := EmptyString |}, o)
        end
  end.

(** The error type a result carries, if it carries an exception. *)
Definition exceptionType (res : PrepareUpstreamRequestResult)
  : option ErrorType :=
  (λ e, error_type (exception_error e)) <$> exception res.

End RequestOwner.

(** ** Route entries (route_matcher_impl.h) *)

(** 64-bit unsigned arithmetic. *)
Definition uint64_add (a b : N) : N := ((a + b) mod 2 ^ 64)%N.

Module WeightedClusterEntry.

Record t := { cluster_name_ : string; cluster_weight_ : N }.

Definition clusterWeight (e : t) : N := cluster_weight_ e.
Definition clusterName (e : t) : string := cluster_name_ e.

End WeightedClusterEntry.

Module RouteEntryImplBase.

Record t := {
  total_cluster_weight_ : N;
  route_name_ : string;
  cluster_name_ : string;
  weighted_clusters_ : list WeightedClusterEntry.t
}.

(** A [RouteConstSharedPtr] handed out by a route entry points either to
    the entry itself or to one of its weighted clusters, identified by
    its position in [weighted_clusters_]. *)
Inductive Route := ThisRoute | WeightedCluster (index : nat).

Definition clusterName (re : t) (route : Route) : option string :=
  match route with
  | ThisRoute => Some (cluster_name_ re)
  | WeightedCluster i =>
      WeightedClusterEntry.clusterName <$> weighted_clusters_ re !! i
  end.

(** Modelled from the spec: the loop of [clusterEntry] over the weighted
    clusters. The spec says: iterate the weighted entries accumulating
    weight and select the entry where the running sum first exceeds [r].
    [acc] is the sum so far and [i] the position of the head of [l]. *)
Fixpoint selectWeighted (r acc : N) (i : nat)
    (l : list WeightedClusterEntry.t) : option nat :=
  match l with
  | [] => None
  | e :: l' =>
      let acc' := uint64_add acc (WeightedClusterEntry.clusterWeight e) in
      if (r <? acc')%N then Some i else selectWeighted r acc' (S i) l'
  end.

(** Modelled from the spec: [RouteEntryImplBase::clusterEntry] is
    declared in route_matcher_impl.h and defined in
    route_matcher_impl.cc, which is not among the sources. The spec says:
    with no weighted-cluster list return the route's primary cluster;
    otherwise compute [r = random_value mod total_cluster_weight] and
    select over the running sums. The result is [None] where the spec
    gives none: a zero total weight, or no running sum above [r]. *)
Definition clusterEntry (random_value : N) (re : t) : option Route :=
  match weighted_clusters_ re with
  | [] => Some ThisRoute
  | _ =>
      if (total_cluster_weight_ re =? 0)%N then None
      else
        WeightedCluster <$>
          selectWeighted (random_value mod total_cluster_weight_ re)%N
            0%N 0 (weighted_clusters_ re)
  end.

(** The running sum of the weights of a list of entries, continued
    from [acc], as the 64-bit accumulator holds it. *)
Definition sumFrom (acc : N) (l : list WeightedClusterEntry.t) : N :=
  foldl (λ acc e, uint64_add acc (WeightedClusterEntry.clusterWeight e))
    acc l.

Definition runningSum (l : list WeightedClusterEntry.t) : N :=
  sumFrom 0%N l.

(** Entry [i] is the first whose running sum exceeds [r]. *)
Definition firstExceeding (r : N) (i : nat)
    (l : list WeightedClusterEntry.t) : Prop :=
  i < length l ∧
  (r < runningSum (take (S i) l))%N ∧
  ∀ j, j < i → (runningSum (take (S j) l) ≤ r)%N.

(** The sum of the weights, as a number. *)
Definition sumOfWeights (l : list WeightedClusterEntry.t) : N :=
  foldr (λ e acc, (WeightedClusterEntry.clusterWeight e + acc)%N) 0%N l.

(** The invariant of a route entry the spec states: the weights sum to
    the declared total (which fits its 64-bit field). *)
Definition weightsSumToTotal (re : t) : Prop :=
  sumOfWeights (weighted_clusters_ re) = total_cluster_weight_ re ∧
  (total_cluster_weight_ re < 2 ^ 64)%N.

End RouteEntryImplBase.

(** ** Local rate limiter (local_ratelimit_impl.h) *)

(** [RateLimit::DescriptorEntry]: [key_] and [value_]. *)
Definition DescriptorEntry : Type := string * string.

(** [RateLimit::LocalDescriptor]: its [entries_]. *)
Definition LocalDescriptor : Type := list DescriptorEntry.

(** [RateLimit::TokenBucket] *)
Record TokenBucket := {
  max_tokens : N;
  tokens_per_fill : N;
  fill_interval : N
}.

Module TokenState.

(** [tokens_] is a 32-bit unsigned counter. *)
Record t := { tokens_ : N; fill_time_ : N }.

Definition set_tokens_ (v : N) (s : t) : t :=
  {| tokens_ := v; fill_time_ := fill_time_ s |}.

End TokenState.

Module LocalDescriptorImpl.

(** The [entries_] of a configured descriptor are its key in
    [descriptors_]. *)
Record t := { token_state_ : TokenState.t; token_bucket_ : TokenBucket }.

Definition set_token_state_ (v : TokenState.t) (d : t) : t :=
  {| token_state_ := v; token_bucket_ := token_bucket_ d |}.

(** [toString]: each entry as key=value ([absl::StrCat]), the entries
    joined by a comma and a space ([absl::StrJoin]). *)
Definition toString (entries_ : LocalDescriptor) : string :=
  String.concat ", " ((λ entry, entry.1 +:+ "=" +:+ entry.2) <$> entries_).

End LocalDescriptorImpl.

Module LocalRateLimiterImpl.

(** [descriptors_] is a hash set of descriptors hashed and compared
    ([LocalDescriptorHash], [LocalDescriptorEqual]) by their entries:
    a finite map from entries to the rest of the descriptor. *)
Record t := {
  token_bucket_ : TokenBucket;
  tokens_ : TokenState.t;
  descriptors_ : gmap LocalDescriptor LocalDescriptorImpl.t
}.

Definition set_tokens_ (v : TokenState.t) (l : t) : t :=
  {| token_bucket_ := token_bucket_ l; tokens_ := v;
     descriptors_ := descriptors_ l |}.

Definition set_descriptors_
    (v : gmap LocalDescriptor LocalDescriptorImpl.t) (l : t) : t :=
  {| token_bucket_ := token_bucket_ l; tokens_ := tokens_ l;
     descriptors_ := v |}.

(** A token state of the limiter: the global one or a descriptor's. *)
Inductive Bucket := Global | Descriptor (entries : LocalDescriptor).

Global Instance Bucket_eq_dec : EqDecision Bucket.
Proof. solve_decision. Defined.

Definition tokenState (b : Bucket) (l : t) : option TokenState.t :=
  match b with
  | Global => Some (tokens_ l)
  | Descriptor k =>
      LocalDescriptorImpl.token_state_ <$> descriptors_ l !! k
  end.

Definition setTokenState (b : Bucket) (s : TokenState.t) (l : t) : t :=
  match b with
  | Global => set_tokens_ s l
  | Descriptor k =>
      set_descriptors_
        (alter (LocalDescriptorImpl.set_token_state_ s) k (descriptors_ l))
        l
  end.

(** The tokens of a bucket (0 for a descriptor that is not configured). *)
Definition tokens (b : Bucket) (l : t) : N :=
  from_option TokenState.tokens_ 0%N (tokenState b l).

(** Modelled from the spec: [requestAllowedHelper] is declared in
    local_ratelimit_impl.h and defined in local_ratelimit_impl.cc, which
    is not among the sources. The spec says: attempt to decrement the
    counter by compare-and-swap; a decrement that would take the counter
    below zero fails. Run on its own, the compare-and-swap succeeds at
    its first attempt. *)
Definition requestAllowedHelper (s : TokenState.t) : bool * TokenState.t :=
  if (TokenState.tokens_ s =? 0)%N then (false, s)
  else (true, TokenState.set_tokens_ (TokenState.tokens_ s - 1)%N s).

(** Modelled from the spec: the compensating increment that rolls one
    decrement back, on the 32-bit counter. *)
Definition compensate (s : TokenState.t) : TokenState.t :=
  TokenState.set_tokens_ ((TokenState.tokens_ s + 1) mod 2 ^ 32)%N s.

Definition decrement (b : Bucket) (l : t) : bool * t :=
  match tokenState b l with
  | Some s =>
      let '(ok, s') := requestAllowedHelper s in
      (ok, if ok then setTokenState b s' l else l)
  | None => (true, l)
  end.

Definition increment (b : Bucket) (l : t) : t :=
  match tokenState b l with
  | Some s => setTokenState b (compensate s) l
  | None => l
  end.

(** Modelled from the spec: roll back the decrements made so far, the
    latest first. *)
Definition rollback (decremented : list Bucket) (l : t) : t :=
  foldl (λ l b, increment b l) l decremented.

(** Modelled from the spec: decrement each bucket in turn; [decremented]
    holds those already decremented, the latest first. At the first
    failure everything is rolled back and the request is denied. *)
Fixpoint decrementAll (buckets decremented : list Bucket) (l : t)
  : bool * t :=
  match buckets with
  | [] => (true, l)
  | b :: buckets' =>
      let '(ok, l') := decrement b l in
      if ok then decrementAll buckets' (b :: decremented) l'
      else (false, rollback decremented l')
  end.

(** The limiter after each bucket of [bs] has given one token, if each
    had one to give. *)
Fixpoint decrementEach (bs : list Bucket) (l : t) : option t :=
  match bs with
  | [] => Some l
  | b :: bs' =>
      let '(ok, l') := decrement b l in
      if ok then decrementEach bs' l' else None
  end.

(** Modelled from the spec: the configured descriptors that match the
    request, each once: those equal (by [LocalDescriptorEqual], that is
    by their entries) to one of the request's descriptors. *)
Definition matching (request_descriptors : list LocalDescriptor) (l : t)
  : list LocalDescriptor :=
  remove_dups
    (filter (λ d, is_Some (descriptors_ l !! d)) request_descriptors).

Definition buckets (request_descriptors : list LocalDescriptor) (l : t)
  : list Bucket :=
  (Descriptor <$> matching request_descriptors l) ++ [Global].

(** Modelled from the spec: [requestAllowed] is declared in
    local_ratelimit_impl.h and defined in local_ratelimit_impl.cc, which
    is not among the sources. The spec says: collect the matching
    descriptor buckets; attempt to decrement each of them plus the global
    bucket; if any decrement would take a counter below zero, roll all
    prior decrements of this call back and deny; otherwise allow. *)
Definition requestAllowed (request_descriptors : list LocalDescriptor)
    (l : t) : bool * t :=
  decrementAll (buckets request_descriptors l) [] l.

(** Every counter fits its 32 bits. *)
Definition wellFormed (l : t) : Prop :=
  ∀ b s, tokenState b l = Some s → (TokenState.tokens_ s < 2 ^ 32)%N.

End LocalRateLimiterImpl.

(** ** Concrete objects used to exercise the statements *)

Definition identityCodec : Codec := λ _ _ buffer, buffer.

Definition host0 : Host := {| host_address := "10.0.0.1:20880" |}.

Definition conn0 : ConnectionData :=
  {| conn_id := 1; remote_address := "10.0.0.1:20880" |}.

Definition handle0 : Handle := {| handle_id := 7 |}.

Definition metadataOf (type : MessageType) : Metadata :=
  {| message_type := type; properties := ∅;
     origin_message := [Byte.x01; Byte.x02] |}.

(** A fresh request of the given message type. *)
Definition requestOf (type : MessageType) : UpstreamRequest.t :=
  UpstreamRequest.new identityCodec (metadataOf type) [].

(** The same request while it waits for the pool. *)
Definition pendingOf (type : MessageType) : UpstreamRequest.t :=
  UpstreamRequest.set_conn_pool_handle_ (Some handle0) (requestOf type).

(** The same request once it holds a connection. *)
Definition connectedOf (type : MessageType) : UpstreamRequest.t :=
  UpstreamRequest.set_conn_data_ (Some conn0) (requestOf type).

(** The key under which the concrete requests record the server. *)
Definition realServerAddress : string := "real-server-address".

(** The state of a fresh request whose connection was ready at once. *)
Definition servedOf (type : MessageType) : UpstreamRequest.t :=
  match UpstreamRequest.start realServerAddress (PoolReadySync conn0 host0)
          (requestOf type) with
  | inr (_, r, _) => r
  | inl _ => requestOf type
  end.

(** A cluster manager that knows three clusters: one healthy, one in
    maintenance and one without any pool. *)
Definition poolOf (id : nat)
  : RequestOwner.ResourcePriority → RequestOwner.LoadBalancerContext
    → option RequestOwner.TcpPoolData :=
  λ _ _, Some {| RequestOwner.pool_id := id |}.

Definition noPool
  : RequestOwner.ResourcePriority → RequestOwner.LoadBalancerContext
    → option RequestOwner.TcpPoolData :=
  λ _ _, None.

Definition clusters : RequestOwner.ClusterManager :=
  {| RequestOwner.getThreadLocalCluster := λ cluster_name,
       if String.eqb cluster_name "healthy" then
         Some {| RequestOwner.info :=
                   {| RequestOwner.name := "healthy";
                      RequestOwner.maintenanceMode := false |};
                 RequestOwner.tcpConnPool := poolOf 1 |}
       else if String.eqb cluster_name "maintenance" then
         Some {| RequestOwner.info :=
                   {| RequestOwner.name := "maintenance";
                      RequestOwner.maintenanceMode := true |};
                 RequestOwner.tcpConnPool := poolOf 2 |}
       else if String.eqb cluster_name "drained" then
         Some {| RequestOwner.info :=
                   {| RequestOwner.name := "drained";
                      RequestOwner.maintenanceMode := false |};
                 RequestOwner.tcpConnPool := noPool |}
       else None |}.

Definition owner : RequestOwner.t :=
  {| RequestOwner.cluster_ := None;
     RequestOwner.cluster_manager_ := clusters |}.

(** Route "svc-A" of the spec's scenario S1. *)
Definition svcA : RouteEntryImplBase.t :=
  {| RouteEntryImplBase.total_cluster_weight_ := 100;
     RouteEntryImplBase.route_name_ := "svc-A";
     RouteEntryImplBase.cluster_name_ := "c1";
     RouteEntryImplBase.weighted_clusters_ :=
       [ {| WeightedClusterEntry.cluster_name_ := "c2";
            WeightedClusterEntry.cluster_weight_ := 75 |};
         {| WeightedClusterEntry.cluster_name_ := "c3";
            WeightedClusterEntry.cluster_weight_ := 25 |} ] |}.

(** A limiter with one token left for the descriptor [user=alice] and
    none left globally. *)
Definition alice : LocalDescriptor := [("user", "alice")].

Definition bucket5 : TokenBucket :=
  {| max_tokens := 5; tokens_per_fill := 5; fill_interval := 1000 |}.

Definition limiter : LocalRateLimiterImpl.t :=
  {| LocalRateLimiterImpl.token_bucket_ := bucket5;
     LocalRateLimiterImpl.tokens_ :=
       {| TokenState.tokens_ := 0; TokenState.fill_time_ := 0 |};
     LocalRateLimiterImpl.descriptors_ :=
       {[ alice :=
            {| LocalDescriptorImpl.token_state_ :=
                 {| TokenState.tokens_ := 1; TokenState.fill_time_ := 0 |};
               LocalDescriptorImpl.token_bucket_ := bucket5 |} ]} |}.
(** * Properties of the upstream request *)

(** ** Running the methods *)

Ltac unfold_methods :=
  cbv [UpstreamRequest.onPoolFailure UpstreamRequest.onPoolReady
       UpstreamRequest.encodeData UpstreamRequest.releaseUpStreamConnection
       UpstreamRequest.Base UpstreamRequest.start
       UpstreamRequest.onResponseComplete UpstreamRequest.run
       UpstreamRequest.metadata_
       UpstreamRequestByHandler.onPoolFailure
       UpstreamRequestByHandler.onPoolReady
       UpstreamRequestByHandler.encodeData UpstreamRequestByHandler.Base
       UpstreamRequestByHandler.start
       UpstreamRequestByHandler.releaseUpStreamConnection
       UpstreamRequestBase.onUpstreamHostSelected
       UpstreamRequestBase.onUpstreamConnectionReset
       UpstreamRequestBase.onUpstreamConnectionEvent
       UpstreamRequestBase.onRequestStart
       UpstreamRequestBase.onRequestComplete
       UpstreamRequestBase.sendLocalReply
       mbind mret M_bind M_ret gets modify call fault ASSERT deref when
       liftM PoolFailureReason_eqb MessageType_eqb orb negb getMessageType].

Ltac open_base b :=
  let md := fresh "md" in
  destruct b as [?codec md ?mutation ?buffer ?upstream_host ?req_complete
                 ?resp_started ?resp_complete ?reset];
  destruct md as [?type ?props ?origin].

Ltac open_request r :=
  let b := fresh "b" in
  destruct r as [b ?handle ?conn]; open_base b.

Ltac open_handler_request r :=
  let b := fresh "b" in
  destruct r as [b]; open_base b.

(** Case analysis on the membership of an entry in an explicit log. *)
Ltac in_log :=
  repeat match goal with
    | H : _ ∈ _ :: _ |- _ => apply elem_of_cons in H; destruct H as [H|H]
    | H : _ ∈ [] |- _ => apply elem_of_nil in H; destruct H
    | H : (_, _) = (_, _) |- _ => inversion H; subst; clear H
    end.

(** Run the method in the goal on a request given field by field. *)
Ltac exec := unfold_methods; simpl.

(** A pool failure on a request always returns, and leaves no handle. *)
Lemma onPoolFailure_returns reason host r :
  ∃ r' log, UpstreamRequest.onPoolFailure reason host r = inr ((), r', log)
    ∧ UpstreamRequest.conn_pool_handle_ r' = None
    ∧ UpstreamRequest.conn_data_ r' = UpstreamRequest.conn_data_ r.
Proof.
  open_request r.
  destruct reason, type, resp_complete; exec; eauto.
Qed.

(** ** Pool failures *)

(** A Oneway request that times out while waiting for the pool: the
    decoder chain is resumed, yet no local reply is sent. *)
Lemma onPoolFailure_oneway_timeout_sends_no_reply :
  ∃ r' log,
    UpstreamRequest.onPoolFailure Timeout host0 (pendingOf Oneway)
      = inr ((), r', log)
    ∧ calls log = [ParentOnUpstreamHostSelected host0; ParentResetStream;
                   OutlierPutResult host0 LocalOriginTimeout;
                   ParentContinueDecoding]
    ∧ count isContinueDecoding log = 1
    ∧ count isSendLocalReply log = 0.
Proof. eexists _, _. split; [reflexivity|]. repeat split. Qed.

(** C1 (as amended): for every pool failure delivered through
    [onPoolFailure], to an [UpstreamRequest] or to an
    [UpstreamRequestByHandler], [continueDecoding] is invoked on the owner
    once when the reason is Timeout, LocalConnectionFailure or
    RemoteConnectionFailure and not at all when it is Overflow; a local
    reply is sent, once, when the message type is not Oneway, and none is
    sent for a Oneway request. *)
Theorem onPoolFailure_continues_decoding reason host :
  (∀ r, ∃ r' log,
      UpstreamRequest.onPoolFailure reason host r = inr ((), r', log)
      ∧ count isContinueDecoding log
        = (if PoolFailureReason_eqb reason Overflow then 0 else 1)
      ∧ count isSendLocalReply log
        = (if MessageType_eqb
                (getMessageType (UpstreamRequest.metadata_ r)) Oneway
           then 0 else 1))
  ∧ (∀ r, ∃ r' log,
      UpstreamRequestByHandler.onPoolFailure reason host r
        = inr ((), r', log)
      ∧ count isContinueDecoding log
        = (if PoolFailureReason_eqb reason Overflow then 0 else 1)
      ∧ count isSendLocalReply log
        = (if MessageType_eqb
                (getMessageType
                   (UpstreamRequestBase.metadata_
                      (UpstreamRequestByHandler.base r))) Oneway
           then 0 else 1)).
Proof.
  split; intros r.
  - open_request r.
    destruct reason, type, resp_complete; exec; eauto.
  - open_handler_request r.
    destruct reason, type, resp_complete; exec; eauto.
Qed.

(** ** One-way requests *)

(** C4: when the upstream connection of a Oneway request is reset, for
    whatever reason, [resetStream] is called on the owner and nothing
    else is: no local reply is sent. This holds of the reset itself and of
    a pool failure, which goes through it. *)
Theorem oneway_reset_sends_no_reply (r : UpstreamRequest.t) reason host :
  getMessageType (UpstreamRequest.metadata_ r) = Oneway →
  UpstreamRequestBase.onUpstreamConnectionReset reason
      (UpstreamRequest.base r)
    = inr ((), UpstreamRequest.base r,
           [(ParentResetStream, UpstreamRequest.base r)])
  ∧ (∃ r' log,
       UpstreamRequest.onPoolFailure reason host r = inr ((), r', log)
       ∧ count isSendLocalReply log = 0
       ∧ count isResetStream log = 1).
Proof.
  open_request r. simpl. intros ->. split.
  - destruct reason; reflexivity.
  - destruct reason; exec; eauto.
Qed.

Lemma oneway_reset_sends_no_reply_witness :
  UpstreamRequestBase.onUpstreamConnectionReset Timeout
      (UpstreamRequest.base (pendingOf Oneway))
    = inr ((), UpstreamRequest.base (pendingOf Oneway),
           [(ParentResetStream, UpstreamRequest.base (pendingOf Oneway))])
  ∧ (∃ r' log,
       UpstreamRequest.onPoolFailure Timeout host0 (pendingOf Oneway)
         = inr ((), r', log)
       ∧ count isSendLocalReply log = 0
       ∧ count isResetStream log = 1).
Proof.
  apply (oneway_reset_sends_no_reply (pendingOf Oneway) Timeout host0).
  reflexivity.
Defined.

(** The same when the reset comes from a close event of the upstream
    connection of a Oneway request whose response is not complete. *)
Lemma oneway_close_event_sends_no_reply (b : UpstreamRequestBase.t) host :
  getMessageType (UpstreamRequestBase.metadata_ b) = Oneway →
  UpstreamRequestBase.response_complete_ b = false →
  UpstreamRequestBase.upstream_host_ b = Some host →
  UpstreamRequestBase.onUpstreamConnectionEvent LocalClose b
    = inr ((), b, [(ParentResetStream, b)])
  ∧ UpstreamRequestBase.onUpstreamConnectionEvent RemoteClose b
    = inr ((), b, [(ParentResetStream, b);
                   (OutlierPutResult host LocalOriginConnectFailed, b)]).
Proof.
  open_base b. simpl. intros -> -> ->. split; reflexivity.
Qed.

(** ** Outlier detection *)

(** A pool failure with reason LocalConnectionFailure reports nothing to
    the outlier detector of the host. *)
Lemma onPoolFailure_local_failure_puts_no_result :
  ∃ r' log,
    UpstreamRequest.onPoolFailure LocalConnectionFailure host0
        (pendingOf Request)
      = inr ((), r', log)
    ∧ count isPutResult log = 0.
Proof. eexists _, _. split; reflexivity. Qed.

(** C9 (as amended): for a pool failure handled by
    [UpstreamRequest::onPoolFailure], the outlier detector of the selected
    host receives LocalOriginTimeout when the reason is Timeout and
    LocalOriginConnectFailed when it is RemoteConnectionFailure, once and
    nothing else; when the reason is LocalConnectionFailure it receives
    no result. *)
Theorem onPoolFailure_outlier_result host r :
  (∃ r' log,
     UpstreamRequest.onPoolFailure Timeout host r = inr ((), r', log)
     ∧ List.filter isPutResult (calls log)
       = [OutlierPutResult host LocalOriginTimeout])
  ∧ (∃ r' log,
       UpstreamRequest.onPoolFailure RemoteConnectionFailure host r
         = inr ((), r', log)
       ∧ List.filter isPutResult (calls log)
         = [OutlierPutResult host LocalOriginConnectFailed])
  ∧ (∃ r' log,
       UpstreamRequest.onPoolFailure LocalConnectionFailure host r
         = inr ((), r', log)
       ∧ List.filter isPutResult (calls log) = []).
Proof.
  open_request r.
  repeat split; destruct type, resp_complete; exec; eauto.
Qed.

(** ** Pool ready *)

(** What [putString] writes, [getString] reads. *)
Lemma getString_putString k v m : getString k (putString k v m) = Some v.
Proof. unfold getString, putString. simpl. apply lookup_insert_eq. Qed.

Lemma getString_putString_ne k k' v m :
  k ≠ k' → getString k' (putString k v m) = getString k' m.
Proof. intros. unfold getString, putString. simpl. by apply lookup_insert_ne. Qed.

Section PoolReady.

Variable RealServerAddress : string.

(** [onPoolReady] always returns; it leaves no handle, and the
    connection data it was given unless the request opens a stream. *)
Lemma onPoolReady_returns conn_data host r :
  ∃ r' log,
    UpstreamRequest.onPoolReady RealServerAddress conn_data host r
      = inr ((), r', log)
    ∧ UpstreamRequest.conn_pool_handle_ r' = None
    ∧ UpstreamRequest.conn_data_ r'
      = (if MessageType_eqb
              (getMessageType (UpstreamRequest.metadata_ r)) Stream_Init
         then None else Some conn_data).
Proof.
  open_request r.
  destruct type, handle; exec; eauto.
Qed.

(** C2: [onPoolReady] registers upstream callbacks on the connection
    data exactly when the message type is Request, writes the remote
    address of the upstream connection into the request metadata under
    the key RealServerAddress, and invokes [continueDecoding] on the
    owner exactly when a pool handle was pending, that is when the
    filter chain had been paused. *)
Theorem onPoolReady_callbacks_address_continue conn_data host r :
  ∃ r' log,
    UpstreamRequest.onPoolReady RealServerAddress conn_data host r
      = inr ((), r', log)
    ∧ (ConnAddUpstreamCallbacks conn_data ∈ calls log
       ↔ getMessageType (UpstreamRequest.metadata_ r) = Request)
    ∧ (0 < count isAddUpstreamCallbacks log
       ↔ getMessageType (UpstreamRequest.metadata_ r) = Request)
    ∧ getString RealServerAddress (UpstreamRequest.metadata_ r')
      = Some (remote_address conn_data)
    ∧ (ParentContinueDecoding ∈ calls log
       ↔ UpstreamRequest.conn_pool_handle_ r ≠ None).
Proof.
  open_request r.
  destruct type, handle; exec; eexists _, _;
    (split; [reflexivity|]); simpl;
    rewrite getString_putString; unfold calls, count; simpl;
    rewrite ?elem_of_cons, ?elem_of_nil;
    intuition (try discriminate; try congruence; try lia).
Qed.

(** C6: for a Stream_Init request, when the pool becomes ready the
    stream is reset on the owner ([resetStream]) and the connection data
    is moved out of the request and handed to the owner
    ([setUpstreamConnection]); these are the last two calls made, both
    while [request_complete_] is still as it was when [onPoolReady] was
    entered, and [onRequestComplete] runs after them, on the request as
    the second call left it, and raises the flag. When [onPoolReady]
    returns the request no longer holds the connection data. *)
Theorem onPoolReady_stream_init_transfers_connection conn_data host r :
  getMessageType (UpstreamRequest.metadata_ r) = Stream_Init →
  ∃ r' log before at_reset at_transfer,
    UpstreamRequest.onPoolReady RealServerAddress conn_data host r
      = inr ((), r', log)
    ∧ log = before ++
            [(ParentResetStream, at_reset);
             (ParentSetUpstreamConnection (Some conn_data), at_transfer)]
    ∧ UpstreamRequest.conn_data_ at_reset = Some conn_data
    ∧ UpstreamRequest.conn_data_ at_transfer = None
    ∧ UpstreamRequestBase.request_complete_ (UpstreamRequest.base at_reset)
      = UpstreamRequestBase.request_complete_ (UpstreamRequest.base r)
    ∧ UpstreamRequestBase.request_complete_
        (UpstreamRequest.base at_transfer)
      = UpstreamRequestBase.request_complete_ (UpstreamRequest.base r)
    ∧ UpstreamRequest.Base UpstreamRequestBase.onRequestComplete
        at_transfer = inr ((), r', [])
    ∧ UpstreamRequestBase.request_complete_ (UpstreamRequest.base r')
      = true
    ∧ UpstreamRequest.conn_data_ r' = None.
Proof.
  open_request r. simpl. intros ->.
  destruct handle; exec.
  - eexists _, _, [_; _; _; _; _], _, _. repeat split.
  - eexists _, _, [_; _; _; _], _, _. repeat split.
Qed.

End PoolReady.

Lemma onPoolReady_stream_init_transfers_connection_witness :
  ∃ r' log before at_reset at_transfer,
    UpstreamRequest.onPoolReady "real-server-address" conn0 host0
        (pendingOf Stream_Init)
      = inr ((), r', log)
    ∧ log = before ++
            [(ParentResetStream, at_reset);
             (ParentSetUpstreamConnection (Some conn0), at_transfer)]
    ∧ UpstreamRequest.conn_data_ at_reset = Some conn0
    ∧ UpstreamRequest.conn_data_ at_transfer = None
    ∧ UpstreamRequestBase.request_complete_ (UpstreamRequest.base at_reset)
      = UpstreamRequestBase.request_complete_
          (UpstreamRequest.base (pendingOf Stream_Init))
    ∧ UpstreamRequestBase.request_complete_
        (UpstreamRequest.base at_transfer)
      = UpstreamRequestBase.request_complete_
          (UpstreamRequest.base (pendingOf Stream_Init))
    ∧ UpstreamRequest.Base UpstreamRequestBase.onRequestComplete
        at_transfer = inr ((), r', [])
    ∧ UpstreamRequestBase.request_complete_ (UpstreamRequest.base r')
      = true
    ∧ UpstreamRequest.conn_data_ r' = None.
Proof.
  apply (onPoolReady_stream_init_transfers_connection
           "real-server-address" conn0 host0 (pendingOf Stream_Init)).
  reflexivity.
Defined.

(** An [UpstreamRequestByHandler] is only told that the pool is ready
    after its [start] paused the chain: its [onPoolReady] always invokes
    [continueDecoding], and registers no callbacks. *)
Lemma byHandler_onPoolReady_continues host r :
  ∃ r' log,
    UpstreamRequestByHandler.onPoolReady host r = inr ((), r', log)
    ∧ count isContinueDecoding log = 1
    ∧ count isAddUpstreamCallbacks log = 0.
Proof. open_handler_request r. exec. eauto. Qed.

(** ** Releasing the upstream connection *)

(** C5: [releaseUpStreamConnection(close)], on a request that does not
    hold both a handle and connection data, cancels a pending handle with
    the Default policy; closes the connection, with NoFlush, only when
    [close] is true and connection data was held; makes no other call;
    when the connection is closed the request holds neither the handle
    (cancelled and cleared before) nor the connection data (moved out
    before); and after the call the request holds neither. *)
Theorem releaseUpStreamConnection_cancels_moves_closes close r :
  UpstreamRequest.exclusive r →
  ∃ r' log,
    UpstreamRequest.releaseUpStreamConnection close r = inr ((), r', log)
    ∧ calls log = UpstreamRequest.releaseCalls close r
    ∧ (∀ c at_call, (c, at_call) ∈ log → isConnClose c = true →
         UpstreamRequest.conn_pool_handle_ at_call = None
         ∧ UpstreamRequest.conn_data_ at_call = None)
    ∧ (∀ c at_call, (c, at_call) ∈ log → isHandleCancel c = true →
         UpstreamRequest.conn_pool_handle_ at_call
           = UpstreamRequest.conn_pool_handle_ r)
    ∧ UpstreamRequest.conn_pool_handle_ r' = None
    ∧ UpstreamRequest.conn_data_ r' = None.
Proof.
  unfold UpstreamRequest.exclusive. open_request r. simpl. intros Hex.
  destruct handle as [h|], conn as [c|], close;
    try (exfalso; apply Hex; split; eauto; fail);
    exec; eexists _, _; (split; [reflexivity|]);
    (split; [reflexivity|]); repeat split; intros;
    in_log; simpl in *; done.
Qed.

Lemma releaseUpStreamConnection_cancels_moves_closes_witness :
  ∃ r' log,
    UpstreamRequest.releaseUpStreamConnection true (connectedOf Request)
      = inr ((), r', log)
    ∧ calls log = UpstreamRequest.releaseCalls true (connectedOf Request)
    ∧ (∀ c at_call, (c, at_call) ∈ log → isConnClose c = true →
         UpstreamRequest.conn_pool_handle_ at_call = None
         ∧ UpstreamRequest.conn_data_ at_call = None)
    ∧ (∀ c at_call, (c, at_call) ∈ log → isHandleCancel c = true →
         UpstreamRequest.conn_pool_handle_ at_call
           = UpstreamRequest.conn_pool_handle_ (connectedOf Request))
    ∧ UpstreamRequest.conn_pool_handle_ r' = None
    ∧ UpstreamRequest.conn_data_ r' = None.
Proof.
  apply (releaseUpStreamConnection_cancels_moves_closes
           true (connectedOf Request)).
  unfold UpstreamRequest.exclusive. simpl. intros [[h Hh] _]. discriminate Hh.
Defined.

(** ** The handle and the connection data exclude each other *)

(** A method of the base class leaves the handle and the connection data
    of the derived object alone. *)
Lemma Base_preserves {A} (m : M UpstreamRequestBase.t A) r a r' log :
  UpstreamRequest.Base m r = inr (a, r', log) →
  UpstreamRequest.conn_pool_handle_ r' = UpstreamRequest.conn_pool_handle_ r
  ∧ UpstreamRequest.conn_data_ r' = UpstreamRequest.conn_data_ r.
Proof.
  unfold UpstreamRequest.Base, liftM.
  destruct (m (UpstreamRequest.base r)) as [e|[[a' b'] l]]; [done|].
  intros H. inversion H. subst. done.
Qed.

(** On a request that does not hold both, [encodeData] returns exactly
    when connection data is held and no handle is pending. *)
Lemma encodeData_returns r :
  UpstreamRequest.exclusive r →
  (∃ r' log, UpstreamRequest.encodeData r = inr ((), r', log))
  ↔ is_Some (UpstreamRequest.conn_data_ r)
    ∧ UpstreamRequest.conn_pool_handle_ r = None.
Proof.
  unfold UpstreamRequest.exclusive. open_request r. simpl. intros Hex.
  destruct handle, conn;
    try (exfalso; apply Hex; split; eauto; fail);
    exec; split.
  all: try (intros (? & ? & ?); discriminate).
  all: try (intros [[? ?] ?]; discriminate).
  all: try (intros [? ?]; discriminate).
  all: eauto.
Qed.

Lemma encodeData_preserves r r' log :
  UpstreamRequest.encodeData r = inr ((), r', log) →
  UpstreamRequest.conn_pool_handle_ r' = UpstreamRequest.conn_pool_handle_ r
  ∧ UpstreamRequest.conn_data_ r' = UpstreamRequest.conn_data_ r.
Proof.
  open_request r.
  destruct handle, conn; exec; intros H; inversion H; subst; done.
Qed.

(** When [releaseUpStreamConnection] returns, the request holds neither
    the handle nor the connection data. *)
Lemma releaseUpStreamConnection_clears close r r' log :
  UpstreamRequest.releaseUpStreamConnection close r = inr ((), r', log) →
  UpstreamRequest.conn_pool_handle_ r' = None
  ∧ UpstreamRequest.conn_data_ r' = None.
Proof.
  open_request r.
  destruct handle, conn, close; exec; intros H; inversion H; subst; done.
Qed.

Lemma releaseUpStreamConnection_returns close r :
  UpstreamRequest.exclusive r →
  ∃ r' log,
    UpstreamRequest.releaseUpStreamConnection close r = inr ((), r', log).
Proof.
  unfold UpstreamRequest.exclusive. open_request r. simpl. intros Hex.
  destruct handle, conn, close;
    try (exfalso; apply Hex; split; eauto; fail);
    exec; eauto.
Qed.

(** On a request that does not hold both, the release returns, and if
    it cancels a handle the request was holding no connection data. *)
Lemma releaseUpStreamConnection_cancel close r :
  UpstreamRequest.exclusive r →
  ∃ r' log,
    UpstreamRequest.releaseUpStreamConnection close r = inr ((), r', log)
    ∧ ∀ c at_call, (c, at_call) ∈ log → isHandleCancel c = true →
        UpstreamRequest.conn_data_ r = None.
Proof.
  unfold UpstreamRequest.exclusive. open_request r. simpl. intros Hex.
  destruct handle, conn, close;
    try (exfalso; apply Hex; split; eauto; fail);
    exec; eexists _, _; (split; [reflexivity|]);
    intros; in_log; simpl in *; done.
Qed.

Lemma onResponseComplete_clears r :
  ∃ r', UpstreamRequest.onResponseComplete r = inr ((), r', [])
    ∧ UpstreamRequest.conn_pool_handle_ r'
      = UpstreamRequest.conn_pool_handle_ r
    ∧ UpstreamRequest.conn_data_ r' = None.
Proof. open_request r. exec. eauto. Qed.

Section Reachable.

Variable RealServerAddress : string.

Lemma start_exclusive codec metadata mutation pool status r log :
  UpstreamRequest.start RealServerAddress pool
      (UpstreamRequest.new codec metadata mutation)
    = inr (status, r, log) →
  UpstreamRequest.exclusive r.
Proof.
  unfold UpstreamRequest.exclusive. destruct pool as [h|cd host|reason host].
  - cbv [UpstreamRequest.start mbind mret M_bind M_ret modify]. simpl.
    intros H; inversion H; subst; simpl.
    intros [_ [? ?]]; discriminate.
  - unfold UpstreamRequest.start.
    destruct (onPoolReady_returns RealServerAddress cd host
                (UpstreamRequest.new codec metadata mutation))
      as (r1 & l1 & E & Hh & _).
    cbv [mbind mret M_bind M_ret]. rewrite E.
    intros H; inversion H; subst. rewrite Hh.
    intros [[? ?] _]; discriminate.
  - unfold UpstreamRequest.start.
    destruct (onPoolFailure_returns reason host
                (UpstreamRequest.new codec metadata mutation))
      as (r1 & l1 & E & Hh & _).
    cbv [mbind mret M_bind M_ret]. rewrite E.
    intros H; inversion H; subst. rewrite Hh.
    intros [[? ?] _]; discriminate.
Qed.

Lemma run_exclusive op r r' log :
  UpstreamRequest.exclusive r →
  UpstreamRequest.run RealServerAddress op r = inr ((), r', log) →
  UpstreamRequest.exclusive r'.
Proof.
  unfold UpstreamRequest.exclusive. intros Hex.
  destruct op as [cd host|reason host|close| |event| ]; simpl.
  - destruct (onPoolReady_returns RealServerAddress cd host r)
      as (r1 & l1 & E & Hh & _).
    rewrite E. intros H; inversion H; subst. rewrite Hh.
    intros [[? ?] _]; discriminate.
  - destruct (onPoolFailure_returns reason host r)
      as (r1 & l1 & E & Hh & _).
    rewrite E. intros H; inversion H; subst. rewrite Hh.
    intros [[? ?] _]; discriminate.
  - intros H. apply releaseUpStreamConnection_clears in H as [Hh _].
    rewrite Hh. intros [[? ?] _]; discriminate.
  - destruct (onResponseComplete_clears r) as (r1 & E & _ & Hc).
    rewrite E. intros H; inversion H; subst. rewrite Hc.
    intros [_ [? ?]]; discriminate.
  - intros H. apply Base_preserves in H as [-> ->]. done.
  - intros H. apply encodeData_preserves in H as [-> ->]. done.
Qed.

(** In every reachable state at most one of the two is held. *)
Lemma reachable_exclusive r :
  UpstreamRequest.reachable RealServerAddress r → UpstreamRequest.exclusive r.
Proof.
  induction 1 as [codec metadata mutation pool status r log Hstart
                 |r op r' log _ IH Hrun].
  - eapply start_exclusive, Hstart.
  - eapply run_exclusive; eauto.
Qed.

(** In a reachable state the assertion of [releaseUpStreamConnection]
    holds: the method returns. *)
Lemma reachable_release_returns close r :
  UpstreamRequest.reachable RealServerAddress r →
  ∃ r' log,
    UpstreamRequest.releaseUpStreamConnection close r = inr ((), r', log).
Proof.
  intros Hr. by apply releaseUpStreamConnection_returns,
    reachable_exclusive.
Qed.

(** Both kinds of state are reached: a request waiting for the pool
    holds the handle, a request served at once holds the connection. *)
Example reachable_pending :
  UpstreamRequest.reachable RealServerAddress (pendingOf Request).
Proof.
  eapply (UpstreamRequest.reachable_start RealServerAddress identityCodec
            (metadataOf Request) [] (PoolPending handle0)).
  reflexivity.
Qed.

Example reachable_connected :
  ∃ r, UpstreamRequest.reachable RealServerAddress r
       ∧ UpstreamRequest.conn_data_ r = Some conn0
       ∧ UpstreamRequest.conn_pool_handle_ r = None.
Proof.
  eexists. split.
  - eapply (UpstreamRequest.reachable_start RealServerAddress
              identityCodec (metadataOf Request) []
              (PoolReadySync conn0 host0)).
    reflexivity.
  - split; reflexivity.
Qed.

(** Inside [onPoolReady] the two are held together for a moment: when
    the callbacks are registered on the connection of a request that
    was waiting, the handle is not cleared yet. *)
Remark onPoolReady_registers_before_clearing conn_data host r handle :
  getMessageType (UpstreamRequest.metadata_ r) = Request →
  UpstreamRequest.conn_pool_handle_ r = Some handle →
  ∃ r' log at_call,
    UpstreamRequest.onPoolReady RealServerAddress conn_data host r
      = inr ((), r', log)
    ∧ (ConnAddUpstreamCallbacks conn_data, at_call) ∈ log
    ∧ UpstreamRequest.conn_pool_handle_ at_call = Some handle
    ∧ UpstreamRequest.conn_data_ at_call = Some conn_data.
Proof.
  open_request r. simpl. intros -> ->. exec.
  eexists _, _, _. split; [reflexivity|].
  split; [do 3 right; left; reflexivity|]. split; reflexivity.
Qed.

(** C10: in every reachable state of an [UpstreamRequest] at most one
    of the pool handle and the connection data is held. [start], when
    the pool hands out a handle, stores the handle and changes nothing
    else; [onPoolReady] returns with the handle cleared, holding the
    connection data it stored (or, for a Stream_Init request, having
    passed it on); on a request that does not hold both, as every
    reachable one, [releaseUpStreamConnection] returns and cancels a
    handle only when no connection data is held, and [encodeData] runs
    to its end only with connection data held and no handle pending. *)
Theorem handle_and_connection_data_exclusive :
  (∀ r, UpstreamRequest.reachable RealServerAddress r → UpstreamRequest.exclusive r)
  ∧ (∀ handle r,
       UpstreamRequest.start RealServerAddress (PoolPending handle) r
         = inr (PauseIteration,
                UpstreamRequest.set_conn_pool_handle_ (Some handle) r, []))
  ∧ (∀ conn_data host r, ∃ r' log,
       UpstreamRequest.onPoolReady RealServerAddress conn_data host r
         = inr ((), r', log)
       ∧ UpstreamRequest.conn_pool_handle_ r' = None
       ∧ UpstreamRequest.conn_data_ r'
         = (if MessageType_eqb
                 (getMessageType (UpstreamRequest.metadata_ r))
                 Stream_Init
            then None else Some conn_data))
  ∧ (∀ close r,
       UpstreamRequest.exclusive r →
       ∃ r' log,
         UpstreamRequest.releaseUpStreamConnection close r
           = inr ((), r', log)
         ∧ ∀ c at_call, (c, at_call) ∈ log → isHandleCancel c = true →
             UpstreamRequest.conn_data_ r = None)
  ∧ (∀ r,
       UpstreamRequest.exclusive r →
       (∃ r' log, UpstreamRequest.encodeData r = inr ((), r', log))
       ↔ is_Some (UpstreamRequest.conn_data_ r)
         ∧ UpstreamRequest.conn_pool_handle_ r = None).
Proof.
  split; [exact reachable_exclusive|].
  split; [reflexivity|].
  split; [intros; apply onPoolReady_returns|].
  split; [exact releaseUpStreamConnection_cancel|].
  exact encodeData_returns.
Qed.

End Reachable.

(** * Properties of [prepareUpstreamRequest] *)

Section PrepareUpstreamRequest.

Import RequestOwner.

(** C3: the four outcomes of [prepareUpstreamRequest]. An unknown
    cluster gives a ClusterNotFound exception, the detail
    "unknown_cluster" and no pool data; a cluster in maintenance mode
    gives an Unspecified exception, the detail
    "cluster_in_maintenance_mode" and no pool data; a cluster that
    returns no tcp pool data gives a NoHealthyUpstream exception, the
    detail "no_healthy_upstream" and no pool data; otherwise the result
    carries the pool data, no exception and an empty detail. *)
Theorem prepareUpstreamRequest_outcomes cluster_name request_id lb_context
    (o : RequestOwner.t) :
  let result :=
    (prepareUpstreamRequest cluster_name request_id lb_context o).1 in
  let lookup := getThreadLocalCluster (cluster_manager_ o) cluster_name in
  (lookup = None →
     exceptionType result = Some ClusterNotFound
     ∧ response_code_detail result = "unknown_cluster"
     ∧ conn_pool_data result = None)
  ∧ (∀ cluster, lookup = Some cluster →
       maintenanceMode (info cluster) = true →
       exceptionType result = Some Unspecified
       ∧ response_code_detail result = "cluster_in_maintenance_mode"
       ∧ conn_pool_data result = None)
  ∧ (∀ cluster, lookup = Some cluster →
       maintenanceMode (info cluster) = false →
       tcpConnPool cluster PriorityDefault lb_context = None →
       exceptionType result = Some NoHealthyUpstream
       ∧ response_code_detail result = "no_healthy_upstream"
       ∧ conn_pool_data result = None)
  ∧ (∀ cluster pool, lookup = Some cluster →
       maintenanceMode (info cluster) = false →
       tcpConnPool cluster PriorityDefault lb_context = Some pool →
       exception result = None
       ∧ response_code_detail result = EmptyString
       ∧ conn_pool_data result = Some pool).
Proof.
  intros result lookup. subst result lookup.
  unfold prepareUpstreamRequest.
  destruct (getThreadLocalCluster (cluster_manager_ o) cluster_name)
    as [cluster|].
  - split; [discriminate|].
    split; [|split].
    + intros c [= <-] Hm. rewrite Hm. done.
    + intros c [= <-] Hm Hp. rewrite Hm, Hp. done.
    + intros c pool [= <-] Hm Hp. rewrite Hm, Hp. done.
  - split; [done|].
    split; [|split]; intros; discriminate.
Qed.

Lemma prepareUpstreamRequest_outcomes_witness :
  (exceptionType (prepareUpstreamRequest "missing" 1%N None owner).1
     = Some ClusterNotFound
   ∧ response_code_detail
       (prepareUpstreamRequest "missing" 1%N None owner).1
     = "unknown_cluster"
   ∧ conn_pool_data (prepareUpstreamRequest "missing" 1%N None owner).1
     = None)
  ∧ (exceptionType (prepareUpstreamRequest "maintenance" 1%N None owner).1
       = Some Unspecified
     ∧ response_code_detail
         (prepareUpstreamRequest "maintenance" 1%N None owner).1
       = "cluster_in_maintenance_mode"
     ∧ conn_pool_data
         (prepareUpstreamRequest "maintenance" 1%N None owner).1
       = None)
  ∧ (exceptionType (prepareUpstreamRequest "drained" 1%N None owner).1
       = Some NoHealthyUpstream
     ∧ response_code_detail
         (prepareUpstreamRequest "drained" 1%N None owner).1
       = "no_healthy_upstream"
     ∧ conn_pool_data (prepareUpstreamRequest "drained" 1%N None owner).1
       = None)
  ∧ (exception (prepareUpstreamRequest "healthy" 1%N None owner).1 = None
     ∧ response_code_detail
         (prepareUpstreamRequest "healthy" 1%N None owner).1
       = EmptyString
     ∧ conn_pool_data (prepareUpstreamRequest "healthy" 1%N None owner).1
       = Some {| pool_id := 1 |}).
Proof.
  split; [|split; [|split]].
  - apply (prepareUpstreamRequest_outcomes "missing" 1%N None owner).
    reflexivity.
  - eapply (prepareUpstreamRequest_outcomes "maintenance" 1%N None owner);
      reflexivity.
  - eapply (prepareUpstreamRequest_outcomes "drained" 1%N None owner);
      reflexivity.
  - eapply (prepareUpstreamRequest_outcomes "healthy" 1%N None owner);
      reflexivity.
Defined.

End PrepareUpstreamRequest.

(** * Properties of the weighted cluster selection *)

Section ClusterEntry.

Import RouteEntryImplBase.

Local Open Scope N_scope.

Lemma uint64_add_lt a b : uint64_add a b < 2 ^ 64.
Proof. unfold uint64_add. apply N.mod_lt. done. Qed.

Lemma uint64_add_small a b : a + b < 2 ^ 64 → uint64_add a b = a + b.
Proof. unfold uint64_add. apply N.mod_small. Qed.

(** The loop selects position [i + j] exactly when entry [j] of the
    list is the first at which the sum continued from [acc] exceeds
    [r]. *)
Lemma selectWeighted_first r l : ∀ acc (i k : nat),
  selectWeighted r acc i l = Some k
  ↔ ∃ j : nat, k = (i + j)%nat ∧ (j < length l)%nat
      ∧ r < sumFrom acc (take (S j) l)
      ∧ ∀ j' : nat, (j' < j)%nat → sumFrom acc (take (S j') l) ≤ r.
Proof.
  induction l as [|e l IH]; intros acc i k; simpl.
  - split; [done|]. intros (j & _ & Hj & _). simpl in Hj. lia.
  - destruct (N.ltb_spec r
                (uint64_add acc (WeightedClusterEntry.clusterWeight e)))
      as [Hlt|Hge].
    + split.
      * intros [= <-]. exists 0%nat.
        split_and!; [lia|simpl; lia|exact Hlt|intros; lia].
      * intros (j & -> & _ & _ & Hfirst).
        destruct j as [|j]; [f_equal; lia|].
        specialize (Hfirst 0%nat ltac:(lia)). simpl in Hfirst.
        unfold sumFrom in Hfirst. simpl in Hfirst. lia.
    + rewrite IH. split.
      * intros (j & -> & Hj & Hsum & Hfirst).
        exists (S j). split_and!; [lia|simpl; lia|exact Hsum|].
        intros [|j'] Hj'; [exact Hge|].
        apply (Hfirst j'). lia.
      * intros (j & -> & Hj & Hsum & Hfirst).
        destruct j as [|j].
        { unfold sumFrom in Hsum. simpl in Hsum. lia. }
        exists j. split_and!; [lia|simpl in Hj; lia|exact Hsum|].
        intros j' Hj'. apply (Hfirst (S j')). lia.
Qed.

(** The entry the loop selects has a weight that is not zero. *)
Lemma selectWeighted_weight r l : ∀ acc (i k : nat),
  acc ≤ r → acc < 2 ^ 64 →
  selectWeighted r acc i l = Some k →
  (i ≤ k)%nat
  ∧ ∀ e, l !! (k - i)%nat = Some e →
         WeightedClusterEntry.clusterWeight e ≠ 0.
Proof.
  induction l as [|e l IH]; intros acc i k Hacc Hbound; simpl; [done|].
  destruct (N.ltb_spec r
              (uint64_add acc (WeightedClusterEntry.clusterWeight e)))
    as [Hlt|Hge].
  - intros [= <-]. split; [lia|].
    replace (i - i)%nat with 0%nat by lia. simpl.
    intros e' [= <-] Hzero. rewrite Hzero in Hlt.
    rewrite uint64_add_small in Hlt; lia.
  - intros Hsel.
    apply IH in Hsel as [Hle Hw]; [|exact Hge|apply uint64_add_lt].
    split; [lia|].
    replace (k - i)%nat with (S (k - S i)) by lia. simpl. exact Hw.
Qed.

(** When the weights left reach above [r] without overflow, the loop
    selects an entry. *)
Lemma selectWeighted_total r l : ∀ acc (i : nat),
  acc ≤ r → r < acc + sumOfWeights l → acc + sumOfWeights l < 2 ^ 64 →
  ∃ k, selectWeighted r acc i l = Some k.
Proof.
  induction l as [|e l IH]; intros acc i Hacc Hr Hbound; simpl in *.
  - lia.
  - rewrite uint64_add_small by lia.
    destruct (N.ltb_spec r (acc + WeightedClusterEntry.clusterWeight e))
      as [Hlt|Hge]; [eauto|].
    apply IH; lia.
Qed.

(** C7: the selection of a cluster for a random value [v]. With an
    empty weighted-cluster list the route itself, with its primary
    cluster, is returned. With a non-empty list and
    [r = v mod total_cluster_weight], a weighted entry is returned
    exactly when it is the first entry, in order, whose running sum of
    weights exceeds [r]; under the invariant that the weights sum to
    the total one is returned; the entry returned never has weight 0.
    For the weighted clusters c2 (75) and c3 (25), the value 10 selects
    c2 and the value 80 selects c3. *)
Theorem clusterEntry_selects_first_exceeding (re : RouteEntryImplBase.t)
    (v : N) :
  (weighted_clusters_ re = [] →
     clusterEntry v re = Some ThisRoute
     ∧ clusterName re ThisRoute = Some (cluster_name_ re))
  ∧ (weighted_clusters_ re ≠ [] → total_cluster_weight_ re ≠ 0 →
     ∀ i, clusterEntry v re = Some (WeightedCluster i)
          ↔ firstExceeding (v mod total_cluster_weight_ re) i
              (weighted_clusters_ re))
  ∧ (weighted_clusters_ re ≠ [] → total_cluster_weight_ re ≠ 0 →
     weightsSumToTotal re →
     ∃ i, clusterEntry v re = Some (WeightedCluster i))
  ∧ (∀ i e, clusterEntry v re = Some (WeightedCluster i) →
            weighted_clusters_ re !! i = Some e →
            WeightedClusterEntry.clusterWeight e ≠ 0)
  ∧ (clusterEntry 10 svcA ≫= clusterName svcA = Some "c2"
     ∧ clusterEntry 80 svcA ≫= clusterName svcA = Some "c3").
Proof.
  unfold clusterEntry.
  split; [intros ->; done|].
  split; [|split; [|split; [|split; reflexivity]]].
  - intros Hne Htotal i.
    destruct (weighted_clusters_ re) as [|e l] eqn:El; [done|].
    apply N.eqb_neq in Htotal. rewrite Htotal.
    set (r := v mod total_cluster_weight_ re).
    transitivity (selectWeighted r 0 0 (e :: l) = Some i).
    { destruct (selectWeighted r 0 0 (e :: l)); simpl;
        split; congruence. }
    rewrite selectWeighted_first. unfold firstExceeding, runningSum.
    split.
    + intros (j & -> & ? & ? & ?). done.
    + intros (? & ? & ?). exists i. done.
  - intros Hne Htotal [Hsum Hbound].
    destruct (weighted_clusters_ re) as [|e l] eqn:El; [done|].
    pose proof Htotal as Hz. apply N.eqb_neq in Hz. rewrite Hz.
    destruct (selectWeighted_total
                (v mod total_cluster_weight_ re) (e :: l) 0 0%nat)
      as [k Hk].
    + apply N.le_0_l.
    + rewrite N.add_0_l, Hsum. apply N.mod_lt. exact Htotal.
    + rewrite N.add_0_l, Hsum. exact Hbound.
    + exists k. rewrite Hk. done.
  - intros i e.
    destruct (weighted_clusters_ re) as [|e0 l] eqn:El; [done|].
    destruct (total_cluster_weight_ re =? 0); [done|].
    destruct (selectWeighted _ 0 0%nat (e0 :: l)) as [k|] eqn:Hsel;
      [|done].
    simpl. intros [= <-] He.
    apply selectWeighted_weight in Hsel as [_ Hw];
      [|apply N.le_0_l|done].
    apply Hw. by rewrite Nat.sub_0_r.
Qed.

End ClusterEntry.

(** * Properties of the local rate limiter *)

Section RequestAllowed.

Import LocalRateLimiterImpl.

Local Open Scope N_scope.

Lemma tokenState_set_same b s l :
  is_Some (tokenState b l) → tokenState b (setTokenState b s l) = Some s.
Proof.
  destruct b as [|k]; simpl; [done|].
  intros [s0 Hs]. rewrite lookup_alter_eq.
  destruct (descriptors_ l !! k); simpl in *; [done|discriminate].
Qed.

Lemma tokenState_set_other b b' s l :
  b ≠ b' → tokenState b' (setTokenState b s l) = tokenState b' l.
Proof.
  destruct b as [|k], b' as [|k']; simpl; try done.
  intros Hne. rewrite lookup_alter_ne; [done|congruence].
Qed.

Lemma setTokenState_same b s l :
  tokenState b l = Some s → setTokenState b s l = l.
Proof.
  destruct l as [tb ts ds]. destruct b as [|k]; simpl.
  - intros [= ->]. done.
  - unfold set_descriptors_. simpl. intros Hs. f_equal.
    apply map_eq. intros k'. destruct (decide (k = k')) as [<-|Hne].
    + rewrite lookup_alter_eq.
      destruct (ds !! k) as [[s0 b0]|]; simpl in *; [|done].
      by injection Hs as ->.
    + by rewrite lookup_alter_ne.
Qed.

Lemma setTokenState_twice b s1 s2 l :
  setTokenState b s2 (setTokenState b s1 l) = setTokenState b s2 l.
Proof.
  destruct l as [tb ts ds]. destruct b as [|k]; simpl; [done|].
  unfold set_descriptors_. simpl. f_equal.
  apply map_eq. intros k'. destruct (decide (k = k')) as [<-|Hne].
  - rewrite !lookup_alter_eq. by destruct (ds !! k).
  - by rewrite !lookup_alter_ne.
Qed.

(** A decrement that fails changes nothing. *)
Lemma decrement_denied b l l' : decrement b l = (false, l') → l' = l.
Proof.
  unfold decrement, requestAllowedHelper.
  destruct (tokenState b l) as [s|]; [|done].
  destruct (TokenState.tokens_ s =? 0); intros [= <-]; done.
Qed.

(** A decrement that succeeds took one token from a counter that was
    not zero. *)
Lemma decrement_allowed b l l' :
  decrement b l = (true, l') →
  (tokenState b l = None ∧ l' = l)
  ∨ ∃ s, tokenState b l = Some s ∧ TokenState.tokens_ s ≠ 0
         ∧ l' = setTokenState b
                  (TokenState.set_tokens_ (TokenState.tokens_ s - 1) s) l.
Proof.
  unfold decrement, requestAllowedHelper.
  destruct (tokenState b l) as [s|]; [|intros [= <-]; by left].
  destruct (N.eqb_spec (TokenState.tokens_ s) 0); intros [= <-].
  right. eauto.
Qed.

Lemma decrement_other b b' ok l l' :
  b ≠ b' → decrement b l = (ok, l') → tokenState b' l' = tokenState b' l.
Proof.
  intros Hne Hd. destruct ok.
  - apply decrement_allowed in Hd as [[_ ->]|(s & _ & _ & ->)]; [done|].
    by apply tokenState_set_other.
  - by apply decrement_denied in Hd as ->.
Qed.

Lemma decrement_wellFormed b ok l l' :
  wellFormed l → decrement b l = (ok, l') → wellFormed l'.
Proof.
  intros Hwf Hd. destruct ok.
  - apply decrement_allowed in Hd as [[_ ->]|(s & Hs & Hnz & ->)]; [done|].
    intros b' s'. destruct (decide (b = b')) as [<-|Hne].
    + rewrite tokenState_set_same by (by rewrite Hs).
      intros [= <-]. simpl. specialize (Hwf _ _ Hs). lia.
    + rewrite tokenState_set_other by done. apply Hwf.
  - by apply decrement_denied in Hd as ->.
Qed.

(** The compensating increment undoes a decrement that succeeded. *)
Lemma increment_decrement b l l' :
  wellFormed l → decrement b l = (true, l') → increment b l' = l.
Proof.
  intros Hwf Hd.
  apply decrement_allowed in Hd as [[Hn ->]|(s & Hs & Hnz & ->)].
  - unfold increment. by rewrite Hn.
  - unfold increment. rewrite tokenState_set_same by (by rewrite Hs).
    rewrite setTokenState_twice. apply setTokenState_same.
    rewrite Hs. f_equal. specialize (Hwf _ _ Hs).
    destruct s as [n ft].
    unfold compensate, TokenState.set_tokens_. simpl in *. f_equal.
    replace (n - 1 + 1) with n by lia. symmetry. by apply N.mod_small.
Qed.

(** A denied run of the loop gives back the limiter that rolling the
    earlier decrements back gives. *)
Lemma decrementAll_denied bs : ∀ decremented l l0 l',
  wellFormed l →
  rollback decremented l = l0 →
  decrementAll bs decremented l = (false, l') →
  l' = l0.
Proof.
  induction bs as [|b bs IH]; intros dec l l0 l' Hwf Hroll; simpl;
    [done|].
  destruct (decrement b l) as [[|] l1] eqn:Hd.
  - apply IH.
    + eapply decrement_wellFormed; eauto.
    + simpl. by rewrite (increment_decrement b l l1).
  - intros [= <-]. by apply decrement_denied in Hd as ->.
Qed.

(** A denied run failed at some bucket, after decrementing those before
    it, and rolled exactly those back, the latest first. *)
Lemma decrementAll_rolls_back bs : ∀ decremented l l',
  decrementAll bs decremented l = (false, l') →
  ∃ before b after l1,
    bs = before ++ b :: after
    ∧ decrementEach before l = Some l1
    ∧ decrement b l1 = (false, l1)
    ∧ l' = rollback (reverse before ++ decremented) l1.
Proof.
  induction bs as [|b bs IH]; intros dec l l'; simpl; [done|].
  destruct (decrement b l) as [[|] l1] eqn:Hd.
  - intros H. apply IH in H as (before & b' & after & l2 & -> & He & Hf & ->).
    exists (b :: before), b', after, l2. simpl. rewrite Hd.
    split_and!; try done.
    by rewrite reverse_cons, <- app_assoc.
  - intros [= <-]. pose proof Hd as Hd'. apply decrement_denied in Hd' as ->.
    exists [], b, bs, l. done.
Qed.

(** With distinct buckets, the loop denies as soon as one of them has
    no token. *)
Lemma decrementAll_empty_bucket bs : ∀ decremented l b s,
  NoDup bs → b ∈ bs →
  tokenState b l = Some s → TokenState.tokens_ s = 0 →
  (decrementAll bs decremented l).1 = false.
Proof.
  induction bs as [|b0 bs IH]; intros dec l b s Hnd Hin Hs Hz.
  - by apply elem_of_nil in Hin.
  - apply NoDup_cons in Hnd as [Hnotin Hnd]. simpl.
    destruct (decrement b0 l) as [[|] l1] eqn:Hd; [|done].
    apply elem_of_cons in Hin as [->|Hin].
    + unfold decrement, requestAllowedHelper in Hd.
      rewrite Hs, Hz in Hd. simpl in Hd. discriminate.
    + apply (IH _ l1 b s); try done.
      rewrite <- Hs. eapply decrement_other; [|exact Hd].
      intros <-. done.
Qed.

Lemma buckets_NoDup request_descriptors l :
  NoDup (buckets request_descriptors l).
Proof.
  unfold buckets, matching. apply NoDup_app. split_and!.
  - apply (NoDup_fmap_2_strong Descriptor); [|apply NoDup_remove_dups].
    intros ? ? _ _ [=]. done.
  - intros b Hb Hg. apply list_elem_of_singleton in Hg as ->.
    apply list_elem_of_fmap in Hb as (? & ? & _). discriminate.
  - apply NoDup_singleton.
Qed.

(** The buckets of a call are the global bucket and the buckets of the
    configured descriptors that are among the descriptors of the
    request. *)
Lemma buckets_spec request_descriptors l b :
  b ∈ buckets request_descriptors l
  ↔ b = Global
    ∨ ∃ d, b = Descriptor d ∧ d ∈ request_descriptors
           ∧ is_Some (descriptors_ l !! d).
Proof.
  unfold buckets, matching.
  rewrite elem_of_app, list_elem_of_singleton, list_elem_of_fmap.
  split.
  - intros [(d & -> & Hd) | ->]; [right|by left].
    apply elem_of_remove_dups, list_elem_of_filter in Hd as [? ?]. eauto.
  - intros [-> | (d & -> & Hd & Hc)]; [by right|left].
    exists d. split; [done|].
    by apply elem_of_remove_dups, list_elem_of_filter.
Qed.

(** C8: on a limiter whose counters fit their 32 bits, [requestAllowed]
    returns false if the global bucket has no token to give, and if the
    bucket of a configured descriptor that is among the descriptors of
    the request has none: these are the buckets of the call. A call that
    returns false has rolled back, by compensating increments, latest
    first, the decrements it had made before the one that failed; and it
    leaves the limiter, hence every token count, exactly as it was before
    the call. *)
Theorem requestAllowed_denied_rolls_back request_descriptors
    (l : LocalRateLimiterImpl.t) :
  wellFormed l →
  (TokenState.tokens_ (tokens_ l) = 0 →
     (requestAllowed request_descriptors l).1 = false)
  ∧ (∀ d configured,
       d ∈ request_descriptors →
       descriptors_ l !! d = Some configured →
       TokenState.tokens_ (LocalDescriptorImpl.token_state_ configured) = 0 →
       (requestAllowed request_descriptors l).1 = false)
  ∧ (∀ b, b ∈ buckets request_descriptors l
          ↔ b = Global
            ∨ ∃ d, b = Descriptor d ∧ d ∈ request_descriptors
                   ∧ is_Some (descriptors_ l !! d))
  ∧ (∀ b s, b ∈ buckets request_descriptors l →
          tokenState b l = Some s → TokenState.tokens_ s = 0 →
          (requestAllowed request_descriptors l).1 = false)
  ∧ (∀ l', requestAllowed request_descriptors l = (false, l') →
       ∃ before b after l1,
         buckets request_descriptors l = before ++ b :: after
         ∧ decrementEach before l = Some l1
         ∧ decrement b l1 = (false, l1)
         ∧ l' = rollback (reverse before) l1)
  ∧ (∀ l', requestAllowed request_descriptors l = (false, l') → l' = l).
Proof.
  intros Hwf. unfold requestAllowed. split_and!.
  - intros Hz.
    eapply (decrementAll_empty_bucket _ _ _ Global);
      eauto using buckets_NoDup.
    apply buckets_spec. by left.
  - intros d configured Hd Hc Hz.
    eapply (decrementAll_empty_bucket _ _ _ (Descriptor d));
      eauto using buckets_NoDup.
    + apply buckets_spec. right. exists d. rewrite Hc. eauto.
    + simpl. by rewrite Hc.
  - intros b. apply buckets_spec.
  - intros b s Hin Hs Hz.
    eapply decrementAll_empty_bucket; eauto using buckets_NoDup.
  - intros l' H.
    apply decrementAll_rolls_back in H
      as (before & b & after & l1 & ? & ? & ? & ->).
    exists before, b, after, l1. by rewrite app_nil_r.
  - intros l' H. eapply decrementAll_denied; eauto. done.
Qed.

Lemma limiter_wellFormed : wellFormed limiter.
Proof.
  intros [|k] s; simpl.
  - intros [= <-]. simpl. lia.
  - destruct (decide (k = alice)) as [->|Hne].
    + rewrite lookup_singleton_eq. intros [= <-]. simpl. lia.
    + rewrite lookup_singleton_ne by done. discriminate.
Qed.

Lemma requestAllowed_denied_rolls_back_witness :
  (TokenState.tokens_ (tokens_ limiter) = 0 →
     (requestAllowed [alice] limiter).1 = false)
  ∧ (∀ d configured,
       d ∈ [alice] →
       descriptors_ limiter !! d = Some configured →
       TokenState.tokens_ (LocalDescriptorImpl.token_state_ configured) = 0 →
       (requestAllowed [alice] limiter).1 = false)
  ∧ (∀ b, b ∈ buckets [alice] limiter
          ↔ b = Global
            ∨ ∃ d, b = Descriptor d ∧ d ∈ [alice]
                   ∧ is_Some (descriptors_ limiter !! d))
  ∧ (∀ b s, b ∈ buckets [alice] limiter →
          tokenState b limiter = Some s → TokenState.tokens_ s = 0 →
          (requestAllowed [alice] limiter).1 = false)
  ∧ (∀ l', requestAllowed [alice] limiter = (false, l') →
       ∃ before b after l1,
         buckets [alice] limiter = before ++ b :: after
         ∧ decrementEach before limiter = Some l1
         ∧ decrement b l1 = (false, l1)
         ∧ l' = rollback (reverse before) l1)
  ∧ (∀ l', requestAllowed [alice] limiter = (false, l') → l' = limiter).
Proof.
  apply (requestAllowed_denied_rolls_back [alice] limiter).
  exact limiter_wellFormed.
Defined.

(** The call is denied at the global bucket, after the bucket of
    [alice] gave its token, which the rollback gives back. *)
Example requestAllowed_limiter :
  buckets [alice] limiter = [Descriptor alice; Global]
  ∧ (decrement (Descriptor alice) limiter).1 = true
  ∧ tokens (Descriptor alice)
      (decrement (Descriptor alice) limiter).2 = 0
  ∧ requestAllowed [alice] limiter = (false, limiter).
Proof. vm_compute. done. Qed.

End RequestAllowed.

(** * Further properties of the upstream request *)

(** ** The reply of a connection reset *)

(** X1: For a request that is not Oneway and has a host selected, a
    connection reset changes nothing in the request and sends one local
    reply, an Unspecified error that does not end the stream; it then
    resets the stream unless the response is already complete. *)
Theorem onUpstreamConnectionReset_reply reason (b : UpstreamRequestBase.t)
    host :
  getMessageType (UpstreamRequestBase.metadata_ b) ≠ Oneway →
  UpstreamRequestBase.upstream_host_ b = Some host →
  ∃ message,
    UpstreamRequestBase.onUpstreamConnectionReset reason b
      = inr ((), b,
             (ParentSendLocalReply
                {| exception_error :=
                     {| error_type := Unspecified;
                        error_message := message |} |} false, b)
             :: (if UpstreamRequestBase.response_complete_ b then []
                 else [(ParentResetStream, b)])).
Proof.
  open_base b. simpl. intros Hne ->.
  destruct reason, type, resp_complete; try done; exec; eauto.
Qed.

Lemma onUpstreamConnectionReset_reply_witness :
  ∃ message,
    UpstreamRequestBase.onUpstreamConnectionReset Timeout
        (UpstreamRequestBase.set_upstream_host_ (Some host0)
           (UpstreamRequest.base (requestOf Request)))
      = inr ((),
             UpstreamRequestBase.set_upstream_host_ (Some host0)
               (UpstreamRequest.base (requestOf Request)),
             (ParentSendLocalReply
                {| exception_error :=
                     {| error_type := Unspecified;
                        error_message := message |} |} false,
              UpstreamRequestBase.set_upstream_host_ (Some host0)
                (UpstreamRequest.base (requestOf Request)))
             :: (if UpstreamRequestBase.response_complete_
                      (UpstreamRequestBase.set_upstream_host_ (Some host0)
                         (UpstreamRequest.base (requestOf Request)))
                 then []
                 else [(ParentResetStream,
                        UpstreamRequestBase.set_upstream_host_ (Some host0)
                          (UpstreamRequest.base (requestOf Request)))])).
Proof.
  apply (onUpstreamConnectionReset_reply Timeout
           (UpstreamRequestBase.set_upstream_host_ (Some host0)
              (UpstreamRequest.base (requestOf Request))) host0);
    [discriminate|reflexivity].
Defined.

(** X2: With no host selected, the reply to an Overflow is still sent (its
    message names no host), while the replies to the three other reasons
    dereference the null host. *)
Theorem onUpstreamConnectionReset_without_host (b : UpstreamRequestBase.t) :
  getMessageType (UpstreamRequestBase.metadata_ b) ≠ Oneway →
  UpstreamRequestBase.upstream_host_ b = None →
  (∃ log,
     UpstreamRequestBase.onUpstreamConnectionReset Overflow b
       = inr ((), b, log)
     ∧ count isSendLocalReply log = 1)
  ∧ ∀ reason, reason ≠ Overflow →
      UpstreamRequestBase.onUpstreamConnectionReset reason b
        = inl NullPointer.
Proof.
  open_base b. simpl. intros Hne ->. split.
  - destruct type, resp_complete; try done; exec; eauto.
  - intros reason Hr.
    destruct reason, type; try done; reflexivity.
Qed.

Lemma onUpstreamConnectionReset_without_host_witness :
  (∃ log,
     UpstreamRequestBase.onUpstreamConnectionReset Overflow
         (UpstreamRequest.base (requestOf Request))
       = inr ((), UpstreamRequest.base (requestOf Request), log)
     ∧ count isSendLocalReply log = 1)
  ∧ ∀ reason, reason ≠ Overflow →
      UpstreamRequestBase.onUpstreamConnectionReset reason
          (UpstreamRequest.base (requestOf Request))
        = inl NullPointer.
Proof.
  apply (onUpstreamConnectionReset_without_host
           (UpstreamRequest.base (requestOf Request)));
    [discriminate|reflexivity].
Defined.

(** ** Events of the upstream connection *)

(** X3: [onUpstreamConnectionEvent] handles the two close events only:
    on a request whose response is not complete any other event (a
    Connected event) reaches the PANIC, and on no request does the
    handler return from an event that is not a close. *)
Theorem onUpstreamConnectionEvent_faults (b : UpstreamRequestBase.t) event :
  (UpstreamRequestBase.response_complete_ b = false →
     event ≠ RemoteClose → event ≠ LocalClose →
     UpstreamRequestBase.onUpstreamConnectionEvent event b = inl NotReached)
  ∧ (∀ b' log,
       UpstreamRequestBase.onUpstreamConnectionEvent event b
         = inr ((), b', log) →
       event = RemoteClose ∨ event = LocalClose).
Proof.
  open_base b. simpl. split_and!.
  - intros -> ? ?. destruct event; try done; reflexivity.
  - intros b' log. destruct resp_complete, event; exec; try discriminate;
      intros _; auto.
Qed.

(** X4: A close event on a request whose response is not complete and whose
    host is selected leaves the request as it is and resets the stream
    once. A remote close then reports LocalOriginConnectFailed to the
    outlier detector of the host, as its last call; a local close reports
    nothing. Either sends a local reply unless the request is Oneway. *)
Theorem onUpstreamConnectionEvent_close (b : UpstreamRequestBase.t) host :
  UpstreamRequestBase.response_complete_ b = false →
  UpstreamRequestBase.upstream_host_ b = Some host →
  ∃ remote local,
    UpstreamRequestBase.onUpstreamConnectionEvent RemoteClose b
      = inr ((), b, remote)
    ∧ UpstreamRequestBase.onUpstreamConnectionEvent LocalClose b
      = inr ((), b, local)
    ∧ count isResetStream remote = 1
    ∧ count isResetStream local = 1
    ∧ List.filter isPutResult (calls remote)
      = [OutlierPutResult host LocalOriginConnectFailed]
    ∧ last (calls remote)
      = Some (OutlierPutResult host LocalOriginConnectFailed)
    ∧ count isPutResult local = 0
    ∧ count isSendLocalReply remote = count isSendLocalReply local
    ∧ count isSendLocalReply local
      = (if MessageType_eqb
              (getMessageType (UpstreamRequestBase.metadata_ b)) Oneway
         then 0 else 1).
Proof.
  open_base b. simpl. intros -> ->.
  destruct type; exec; eexists _, _; split_and!; reflexivity.
Qed.

Lemma onUpstreamConnectionEvent_close_witness :
  ∃ remote local,
    UpstreamRequestBase.onUpstreamConnectionEvent RemoteClose
        (UpstreamRequestBase.set_upstream_host_ (Some host0)
           (UpstreamRequest.base (requestOf Request)))
      = inr ((),
             UpstreamRequestBase.set_upstream_host_ (Some host0)
               (UpstreamRequest.base (requestOf Request)), remote)
    ∧ UpstreamRequestBase.onUpstreamConnectionEvent LocalClose
        (UpstreamRequestBase.set_upstream_host_ (Some host0)
           (UpstreamRequest.base (requestOf Request)))
      = inr ((),
             UpstreamRequestBase.set_upstream_host_ (Some host0)
               (UpstreamRequest.base (requestOf Request)), local)
    ∧ count isResetStream remote = 1
    ∧ count isResetStream local = 1
    ∧ List.filter isPutResult (calls remote)
      = [OutlierPutResult host0 LocalOriginConnectFailed]
    ∧ last (calls remote)
      = Some (OutlierPutResult host0 LocalOriginConnectFailed)
    ∧ count isPutResult local = 0
    ∧ count isSendLocalReply remote = count isSendLocalReply local
    ∧ count isSendLocalReply local
      = (if MessageType_eqb
              (getMessageType
                 (UpstreamRequestBase.metadata_
                    (UpstreamRequestBase.set_upstream_host_ (Some host0)
                       (UpstreamRequest.base (requestOf Request))))) Oneway
         then 0 else 1).
Proof.
  apply (onUpstreamConnectionEvent_close
           (UpstreamRequestBase.set_upstream_host_ (Some host0)
              (UpstreamRequest.base (requestOf Request))) host0);
    reflexivity.
Defined.

(** ** What a pool failure leaves behind *)

(** X5: A pool failure first tells the owner which host was selected; it
    leaves the request with that host recorded, an empty request buffer
    and no handle (the handle is dropped, never cancelled), and with the
    connection data and the metadata it had. It writes to no connection
    and closes none. *)
Theorem onPoolFailure_state reason host r :
  ∃ r' log,
    UpstreamRequest.onPoolFailure reason host r = inr ((), r', log)
    ∧ head (calls log) = Some (ParentOnUpstreamHostSelected host)
    ∧ UpstreamRequestBase.upstream_host_ (UpstreamRequest.base r')
      = Some host
    ∧ UpstreamRequestBase.upstream_request_buffer_ (UpstreamRequest.base r')
      = []
    ∧ UpstreamRequest.conn_pool_handle_ r' = None
    ∧ UpstreamRequest.conn_data_ r' = UpstreamRequest.conn_data_ r
    ∧ UpstreamRequest.metadata_ r' = UpstreamRequest.metadata_ r
    ∧ count isHandleCancel log = 0
    ∧ count isConnWrite log = 0
    ∧ count isConnClose log = 0.
Proof.
  open_request r.
  destruct reason, type, resp_complete; exec; eexists _, _;
    split_and!; reflexivity.
Qed.

(** X6: Whether the decoder chain is resumed after a pool failure depends on
    the reason alone, not on whether the request was waiting with a pool
    handle: the calls made are the same with any handle, or none, in
    [conn_pool_handle_]. *)
Theorem onPoolFailure_ignores_handle reason host r handle :
  ∃ r1 log1 r2 log2,
    UpstreamRequest.onPoolFailure reason host r = inr ((), r1, log1)
    ∧ UpstreamRequest.onPoolFailure reason host
        (UpstreamRequest.set_conn_pool_handle_ handle r)
      = inr ((), r2, log2)
    ∧ calls log1 = calls log2
    ∧ r1 = r2.
Proof.
  open_request r.
  destruct reason, type, resp_complete; exec; eexists _, _, _, _;
    split_and!; reflexivity.
Qed.

(** ** What a ready pool sets in motion *)

Section PoolReadyMore.

Variable RealServerAddress : string.

(** X7: [onPoolReady] tells the owner which host was selected before
    anything else, records the host, and reports exactly one result to
    the outlier detector of that host: LocalOriginConnectSuccess. *)
Theorem onPoolReady_host conn_data host r :
  ∃ r' log,
    UpstreamRequest.onPoolReady RealServerAddress conn_data host r
      = inr ((), r', log)
    ∧ head (calls log) = Some (ParentOnUpstreamHostSelected host)
    ∧ UpstreamRequestBase.upstream_host_ (UpstreamRequest.base r')
      = Some host
    ∧ List.filter isPutResult (calls log)
      = [OutlierPutResult host LocalOriginConnectSuccess].
Proof.
  open_request r.
  destruct type, handle; exec; eexists _, _; split_and!; reflexivity.
Qed.

(** X8: [onPoolReady] writes to the connection it was given once: the
    request buffer as the codec of the owner encodes it, from the
    metadata that already carries RealServerAddress, without ending the
    stream; the request buffer is empty afterwards. The registration of
    the upstream callbacks (for a Request) and the resumption of the
    decoder chain (for a request that was waiting) come before the write,
    the hand-over of the connection (for a Stream_Init) after it. *)
Theorem onPoolReady_write conn_data host r :
  ∃ r' log,
    UpstreamRequest.onPoolReady RealServerAddress conn_data host r
      = inr ((), r', log)
    ∧ List.filter isConnWrite (calls log)
      = [ConnWrite conn_data
           (UpstreamRequestBase.createCodec (UpstreamRequest.base r)
              (putString RealServerAddress (remote_address conn_data)
                 (UpstreamRequest.metadata_ r))
              (UpstreamRequestBase.mutation_ (UpstreamRequest.base r))
              (UpstreamRequestBase.upstream_request_buffer_
                 (UpstreamRequest.base r)))
           false]
    ∧ UpstreamRequestBase.upstream_request_buffer_ (UpstreamRequest.base r')
      = []
    ∧ count isAddUpstreamCallbacks log
      = length (List.filter isAddUpstreamCallbacks
                  (callsBefore isConnWrite (calls log)))
    ∧ count isContinueDecoding log
      = length (List.filter isContinueDecoding
                  (callsBefore isConnWrite (calls log)))
    ∧ callsAfter isConnWrite (calls log)
      = (if MessageType_eqb
              (getMessageType (UpstreamRequest.metadata_ r)) Stream_Init
         then [ParentResetStream;
               ParentSetUpstreamConnection (Some conn_data)]
         else []).
Proof.
  open_request r.
  destruct type, handle; exec; eexists _, _; split_and!; reflexivity.
Qed.

(** X9: [start] always returns, and it pauses the filter chain exactly when
    it leaves the request holding a pool handle, which is exactly when
    the pool handed one out; otherwise it lets the chain continue. *)
Theorem start_pauses_iff_handle pool r :
  ∃ status r' log,
    UpstreamRequest.start RealServerAddress pool r = inr (status, r', log)
    ∧ (status = PauseIteration ∨ status = ContinueIteration)
    ∧ (status = PauseIteration
       ↔ is_Some (UpstreamRequest.conn_pool_handle_ r'))
    ∧ (status = PauseIteration ↔ ∃ handle, pool = PoolPending handle).
Proof.
  destruct pool as [h|cd host|reason host].
  - eexists _, _, _. split; [reflexivity|]. simpl.
    split_and!; [auto|split; eauto|split; eauto].
  - destruct (onPoolReady_returns RealServerAddress cd host r)
      as (r' & log & E & Hh & _).
    exists ContinueIteration, r', (log ++ []).
    unfold UpstreamRequest.start. cbv [mbind mret M_bind M_ret].
    rewrite E, Hh.
    split_and!; [done|by right|..]; (split; [done|intros [? ?]; done]).
  - destruct (onPoolFailure_returns reason host r)
      as (r' & log & E & Hh & _).
    exists ContinueIteration, r', (log ++ []).
    unfold UpstreamRequest.start. cbv [mbind mret M_bind M_ret].
    rewrite E, Hh.
    split_and!; [done|by right|..]; (split; [done|intros [? ?]; done]).
Qed.

(** X10: A fresh request whose connection is ready at once: [start] lets the
    chain continue without invoking [continueDecoding], and the bytes
    written to the connection are the codec's encoding of the original
    frame of the metadata. *)
Theorem start_ready_writes_origin_message codec metadata mutation
    conn_data host :
  ∃ r log,
    UpstreamRequest.start RealServerAddress (PoolReadySync conn_data host)
        (UpstreamRequest.new codec metadata mutation)
      = inr (ContinueIteration, r, log)
    ∧ count isContinueDecoding log = 0
    ∧ List.filter isConnWrite (calls log)
      = [ConnWrite conn_data
           (codec
              (putString RealServerAddress (remote_address conn_data)
                 {| message_type := message_type metadata;
                    properties := properties metadata;
                    origin_message := [] |})
              mutation (origin_message metadata))
           false]
    ∧ UpstreamRequest.conn_pool_handle_ r = None.
Proof.
  destruct metadata as [type props origin].
  destruct type; exec; eexists _, _; split_and!; reflexivity.
Qed.

(** X11: After [onPoolReady], releasing the upstream connection with [close]
    set closes the connection the pool gave, with NoFlush; unless the
    request was a Stream_Init, whose connection has been handed to the
    owner: then the release makes no call at all. *)
Theorem onPoolReady_then_release conn_data host r :
  ∃ r1 log1 r2 log2,
    UpstreamRequest.onPoolReady RealServerAddress conn_data host r
      = inr ((), r1, log1)
    ∧ UpstreamRequest.releaseUpStreamConnection true r1
      = inr ((), r2, log2)
    ∧ calls log2
      = (if MessageType_eqb
              (getMessageType (UpstreamRequest.metadata_ r)) Stream_Init
         then [] else [ConnClose conn_data NoFlush]).
Proof.
  open_request r.
  destruct type, handle; exec; eexists _, _, _, _; split_and!; reflexivity.
Qed.

(** X12: Waiting for the pool and then released: whatever [close] says, the
    only call is the cancellation of the handle the pool handed out, with
    the Default policy, and the request holds nothing afterwards. *)
Theorem start_pending_then_release codec metadata mutation handle close :
  ∃ r1 r2 log,
    UpstreamRequest.start RealServerAddress (PoolPending handle)
        (UpstreamRequest.new codec metadata mutation)
      = inr (PauseIteration, r1, [])
    ∧ UpstreamRequest.releaseUpStreamConnection close r1
      = inr ((), r2, log)
    ∧ calls log = [HandleCancel handle Default]
    ∧ UpstreamRequest.conn_pool_handle_ r2 = None
    ∧ UpstreamRequest.conn_data_ r2 = None.
Proof.
  destruct close; exec; eexists _, _, _; split_and!; reflexivity.
Qed.

(** X13: No entry point of an upstream request changes the message type of
    its metadata, nor the value of any metadata key other than
    RealServerAddress. *)
Theorem run_preserves_metadata op r r' log :
  UpstreamRequest.run RealServerAddress op r = inr ((), r', log) →
  getMessageType (UpstreamRequest.metadata_ r')
    = getMessageType (UpstreamRequest.metadata_ r)
  ∧ ∀ key, key ≠ RealServerAddress →
      getString key (UpstreamRequest.metadata_ r')
        = getString key (UpstreamRequest.metadata_ r).
Proof.
  open_request r.
  destruct op as [cd h|reason h|close| |event| ]; simpl.
  - destruct type, handle; exec; intros H; inversion H; subst; simpl;
      (split; [done|]); intros key Hk;
      by rewrite getString_putString_ne.
  - destruct reason, type, resp_complete; exec; intros H; inversion H;
      subst; done.
  - destruct handle, conn, close; exec; intros H; inversion H; subst; done.
  - exec. intros H; inversion H; subst; done.
  - destruct event, type, resp_complete, upstream_host; exec; intros H;
      inversion H; subst; done.
  - destruct handle, conn; exec; intros H; inversion H; subst; done.
Qed.

End PoolReadyMore.

Lemma run_preserves_metadata_witness :
  ∃ r' log,
    UpstreamRequest.run "real-server-address"
        (UpstreamRequest.OnPoolReady conn0 host0) (pendingOf Request)
      = inr ((), r', log)
    ∧ getMessageType (UpstreamRequest.metadata_ r')
      = getMessageType (UpstreamRequest.metadata_ (pendingOf Request))
    ∧ ∀ key, key ≠ "real-server-address" →
        getString key (UpstreamRequest.metadata_ r')
          = getString key (UpstreamRequest.metadata_ (pendingOf Request)).
Proof.
  eexists _, _. split; [reflexivity|].
  eapply (run_preserves_metadata "real-server-address"
            (UpstreamRequest.OnPoolReady conn0 host0) (pendingOf Request)).
  reflexivity.
Defined.

(** ** After the response is complete *)

(** X14: [onResponseComplete] makes no call, drops the connection data and
    keeps the handle. From then on a pool failure, which still sends its
    local reply to a request that is not Oneway, no longer resets the
    stream of such a request. *)
Theorem onResponseComplete_then r :
  ∃ r1,
    UpstreamRequest.onResponseComplete r = inr ((), r1, [])
    ∧ UpstreamRequest.conn_data_ r1 = None
    ∧ UpstreamRequest.conn_pool_handle_ r1
      = UpstreamRequest.conn_pool_handle_ r
    ∧ (∀ reason host, ∃ r2 log,
         UpstreamRequest.onPoolFailure reason host r1 = inr ((), r2, log)
         ∧ count isResetStream log
           = (if MessageType_eqb
                   (getMessageType (UpstreamRequest.metadata_ r)) Oneway
              then 1 else 0)
         ∧ count isSendLocalReply log
           = (if MessageType_eqb
                   (getMessageType (UpstreamRequest.metadata_ r)) Oneway
              then 0 else 1)).
Proof.
  open_request r. exec. eexists. split_and!; [reflexivity..|].
  intros reason h.
  destruct reason, type; exec; eexists _, _; split_and!; reflexivity.
Qed.

(** ** Releasing twice, and what a release leaves alone *)

(** X15: A release that returns changes nothing in the request but the three
    fields it is about: [stream_reset_] is set, the handle and the
    connection data are dropped; the request buffer and the metadata are
    as they were. Releasing again, with [close] set or not, makes no call
    and changes nothing. *)
Theorem releaseUpStreamConnection_again close r r' log :
  UpstreamRequest.releaseUpStreamConnection close r = inr ((), r', log) →
  r' = UpstreamRequest.set_conn_data_ None
         (UpstreamRequest.set_conn_pool_handle_ None
            (UpstreamRequest.set_base
               (UpstreamRequestBase.set_stream_reset_ true
                  (UpstreamRequest.base r)) r))
  ∧ ∀ close',
      UpstreamRequest.releaseUpStreamConnection close' r' = inr ((), r', []).
Proof.
  open_request r.
  destruct handle, conn, close; exec; intros H; inversion H; subst;
    (split; [reflexivity|]); intros []; reflexivity.
Qed.

Lemma releaseUpStreamConnection_again_witness :
  ∃ r' log,
    UpstreamRequest.releaseUpStreamConnection true (connectedOf Request)
      = inr ((), r', log)
    ∧ r' = UpstreamRequest.set_conn_data_ None
             (UpstreamRequest.set_conn_pool_handle_ None
                (UpstreamRequest.set_base
                   (UpstreamRequestBase.set_stream_reset_ true
                      (UpstreamRequest.base (connectedOf Request)))
                   (connectedOf Request)))
    ∧ ∀ close',
        UpstreamRequest.releaseUpStreamConnection close' r'
          = inr ((), r', []).
Proof.
  eexists _, _. split; [reflexivity|].
  eapply (releaseUpStreamConnection_again true (connectedOf Request)).
  reflexivity.
Defined.

(** ** A held connection has a host *)

Section ReachableHost.

Variable RealServerAddress : string.

Lemma onPoolReady_sets_host conn_data host r r' log :
  UpstreamRequest.onPoolReady RealServerAddress conn_data host r
    = inr ((), r', log) →
  UpstreamRequestBase.upstream_host_ (UpstreamRequest.base r') = Some host.
Proof.
  open_request r.
  destruct type, handle; exec; intros H; inversion H; subst; reflexivity.
Qed.

Lemma onPoolFailure_sets_host reason host r r' log :
  UpstreamRequest.onPoolFailure reason host r = inr ((), r', log) →
  UpstreamRequestBase.upstream_host_ (UpstreamRequest.base r') = Some host.
Proof.
  open_request r.
  destruct reason, type, resp_complete; exec; intros H; inversion H; subst;
    reflexivity.
Qed.

Lemma run_connectedHasHost op r r' log :
  UpstreamRequest.connectedHasHost r →
  UpstreamRequest.run RealServerAddress op r = inr ((), r', log) →
  UpstreamRequest.connectedHasHost r'.
Proof.
  unfold UpstreamRequest.connectedHasHost. intros Hinv.
  destruct op as [cd h|reason h|close| |event| ]; simpl.
  - intros H _. apply onPoolReady_sets_host in H. by rewrite H.
  - intros H _. apply onPoolFailure_sets_host in H. by rewrite H.
  - intros H. apply releaseUpStreamConnection_clears in H as [_ ->].
    intros [? ?]; done.
  - destruct (onResponseComplete_clears r) as (r1 & E & _ & Hc).
    rewrite E. intros H; inversion H; subst. rewrite Hc.
    intros [? ?]; done.
  - revert Hinv. open_request r. simpl.
    destruct event, type, resp_complete, upstream_host; exec;
      intros Hinv H; inversion H; subst; simpl; auto.
  - revert Hinv. open_request r. simpl.
    destruct handle, conn; exec; intros Hinv H; inversion H; subst;
      simpl; auto.
Qed.

Lemma reachable_connectedHasHost r :
  UpstreamRequest.reachable RealServerAddress r → UpstreamRequest.connectedHasHost r.
Proof.
  induction 1 as [codec metadata mutation pool status r log Hstart
                 |r op r' log _ IH Hrun].
  - unfold UpstreamRequest.connectedHasHost. revert Hstart.
    destruct pool as [h|cd host|reason host].
    + exec. intros H; inversion H; subst. simpl. intros [? ?]; done.
    + unfold UpstreamRequest.start.
      destruct (onPoolReady_returns RealServerAddress cd host
                  (UpstreamRequest.new codec metadata mutation))
        as (r1 & l1 & E & _).
      cbv [mbind mret M_bind M_ret]. rewrite E.
      intros H; inversion H; subst.
      apply onPoolReady_sets_host in E. by rewrite E.
    + unfold UpstreamRequest.start.
      destruct (onPoolFailure_returns reason host
                  (UpstreamRequest.new codec metadata mutation))
        as (r1 & l1 & E & _).
      cbv [mbind mret M_bind M_ret]. rewrite E.
      intros H; inversion H; subst.
      apply onPoolFailure_sets_host in E. by rewrite E.
  - eapply run_connectedHasHost; eauto.
Qed.

(** X16: In every reachable state, a request that holds connection data has
    its upstream host recorded; so a close event of the connection it
    holds, while the response is not complete, never dereferences a null
    host: the event is handled and returns. *)
Theorem reachable_close_event_returns r event :
  UpstreamRequest.reachable RealServerAddress r →
  is_Some (UpstreamRequest.conn_data_ r) →
  UpstreamRequestBase.response_complete_ (UpstreamRequest.base r) = false →
  event = RemoteClose ∨ event = LocalClose →
  is_Some (UpstreamRequestBase.upstream_host_ (UpstreamRequest.base r))
  ∧ ∃ r' log,
      UpstreamRequest.run RealServerAddress
        (UpstreamRequest.OnUpstreamConnectionEvent event) r
        = inr ((), r', log).
Proof.
  intros Hr Hc Hrc Hev.
  pose proof (reachable_connectedHasHost r Hr Hc) as [host Hhost].
  split; [eauto|].
  revert Hrc Hhost Hev. clear. open_request r. simpl.
  intros -> -> [-> | ->]; destruct type; exec; eauto.
Qed.

End ReachableHost.

Lemma reachable_close_event_returns_witness :
  is_Some (UpstreamRequestBase.upstream_host_
             (UpstreamRequest.base (servedOf Request)))
  ∧ ∃ r' log,
      UpstreamRequest.run realServerAddress
        (UpstreamRequest.OnUpstreamConnectionEvent RemoteClose)
        (servedOf Request)
        = inr ((), r', log).
Proof.
  apply (reachable_close_event_returns realServerAddress).
  - eapply (UpstreamRequest.reachable_start realServerAddress
              identityCodec (metadataOf Request) []
              (PoolReadySync conn0 host0)).
    reflexivity.
  - simpl. eauto.
  - reflexivity.
  - by left.
Defined.

(** * Further properties of the upstream request by handler *)

(** X17: [start] on a handler whose pool is ready sends the encoded request
    buffer to the handler and lets the chain continue; otherwise it adds
    the request to the callbacks of the handler, sends nothing, leaves
    the request as it is and pauses the chain. In neither case is
    [continueDecoding] invoked. *)
Theorem byHandler_start (r : UpstreamRequestByHandler.t) :
  (∃ r' log,
     UpstreamRequestByHandler.start true r
       = inr (ContinueIteration, r', log)
     ∧ List.filter isHandlerCall (calls log)
       = [HandlerOnData
            (UpstreamRequestBase.createCodec
               (UpstreamRequestByHandler.base r)
               (UpstreamRequestBase.metadata_
                  (UpstreamRequestByHandler.base r))
               (UpstreamRequestBase.mutation_
                  (UpstreamRequestByHandler.base r))
               (UpstreamRequestBase.upstream_request_buffer_
                  (UpstreamRequestByHandler.base r)))
            false]
     ∧ count isContinueDecoding log = 0)
  ∧ UpstreamRequestByHandler.start false r
    = inr (PauseIteration, r, [(HandlerAddUpsteamRequestCallbacks, r)]).
Proof.
  open_handler_request r. exec. split; [|reflexivity].
  eexists _, _. split_and!; reflexivity.
Qed.

(** X18: When the handler reports its pool ready, the request tells the owner
    the host, resumes the decoder chain, and only then sends the encoded
    request buffer to the handler, once. It registers nothing on a
    connection, reports nothing to the outlier detector, and leaves the
    metadata as it is. *)
Theorem byHandler_onPoolReady host (r : UpstreamRequestByHandler.t) :
  ∃ r' log,
    UpstreamRequestByHandler.onPoolReady host r = inr ((), r', log)
    ∧ calls log
      = [ParentOnUpstreamHostSelected host; ParentContinueDecoding;
         ParentCreateCodec;
         HandlerOnData
           (UpstreamRequestBase.createCodec
              (UpstreamRequestByHandler.base r)
              (UpstreamRequestBase.metadata_
                 (UpstreamRequestByHandler.base r))
              (UpstreamRequestBase.mutation_
                 (UpstreamRequestByHandler.base r))
              (UpstreamRequestBase.upstream_request_buffer_
                 (UpstreamRequestByHandler.base r)))
           false]
    ∧ UpstreamRequestBase.metadata_ (UpstreamRequestByHandler.base r')
      = UpstreamRequestBase.metadata_ (UpstreamRequestByHandler.base r)
    ∧ UpstreamRequestBase.upstream_host_ (UpstreamRequestByHandler.base r')
      = Some host.
Proof.
  open_handler_request r. exec. eexists _, _. split_and!; reflexivity.
Qed.

(** X19: A pool failure of a request by handler drains the request buffer and
    records the host, like that of an [UpstreamRequest]; but it reports
    nothing to the outlier detector, whatever the reason, and tells the
    handler nothing: the request stays among the callbacks of the
    handler. *)
Theorem byHandler_onPoolFailure reason host
    (r : UpstreamRequestByHandler.t) :
  ∃ r' log,
    UpstreamRequestByHandler.onPoolFailure reason host r
      = inr ((), r', log)
    ∧ count isPutResult log = 0
    ∧ count isHandlerCall log = 0
    ∧ UpstreamRequestBase.upstream_request_buffer_
        (UpstreamRequestByHandler.base r') = []
    ∧ UpstreamRequestBase.upstream_host_ (UpstreamRequestByHandler.base r')
      = Some host.
Proof.
  open_handler_request r.
  destruct reason, type, resp_complete; exec; eexists _, _;
    split_and!; reflexivity.
Qed.

(** * Further properties of [prepareUpstreamRequest] *)

Section PrepareMore.

Import RequestOwner.

(** X20: Whatever the cluster manager answers, the result carries either an
    exception or pool data, never both and never neither; and its
    response-code detail is empty exactly when it carries pool data. *)
Theorem prepareUpstreamRequest_exception_xor_pool cluster_name request_id
    lb_context (o : RequestOwner.t) :
  (exception
     (prepareUpstreamRequest cluster_name request_id lb_context o).1 = None
   ↔ is_Some
       (conn_pool_data
          (prepareUpstreamRequest cluster_name request_id lb_context o).1))
  ∧ (is_Some
       (exception
          (prepareUpstreamRequest cluster_name request_id lb_context o).1)
     ↔ conn_pool_data
         (prepareUpstreamRequest cluster_name request_id lb_context o).1
       = None)
  ∧ (response_code_detail
       (prepareUpstreamRequest cluster_name request_id lb_context o).1
     = EmptyString
     ↔ is_Some
         (conn_pool_data
            (prepareUpstreamRequest cluster_name request_id lb_context
               o).1)).
Proof.
  unfold prepareUpstreamRequest.
  destruct (getThreadLocalCluster (cluster_manager_ o) cluster_name)
    as [cluster|]; [destruct (maintenanceMode (info cluster));
      [|destruct (tcpConnPool cluster PriorityDefault lb_context)]|];
    simpl; split_and!; split; try done; eauto;
    try (intros [? ?]; done).
Qed.

(** X21: The owner remembers the cluster it looked up, also when the request
    cannot be prepared: [cluster_] becomes the info of the cluster found,
    be it in maintenance or without a healthy upstream, and stays as it
    was only when the cluster is unknown. The cluster manager is never
    replaced. *)
Theorem prepareUpstreamRequest_remembers_cluster cluster_name request_id
    lb_context (o : RequestOwner.t) :
  cluster_manager_
    (prepareUpstreamRequest cluster_name request_id lb_context o).2
    = cluster_manager_ o
  ∧ cluster_ (prepareUpstreamRequest cluster_name request_id lb_context o).2
    = match getThreadLocalCluster (cluster_manager_ o) cluster_name with
      | Some cluster => Some (info cluster)
      | None => cluster_ o
      end.
Proof.
  unfold prepareUpstreamRequest.
  destruct (getThreadLocalCluster (cluster_manager_ o) cluster_name)
    as [cluster|]; [destruct (maintenanceMode (info cluster));
      [|destruct (tcpConnPool cluster PriorityDefault lb_context)]|];
    done.
Qed.

End PrepareMore.

(** * Properties of the printing of descriptors *)

Section ToString.

Import LocalDescriptorImpl.

Lemma append_assoc (a b c : string) : (a +:+ b) +:+ c = a +:+ b +:+ c.
Proof.
  induction a as [|x a IH]; [done|].
  change (String x ((a +:+ b) +:+ c) = String x (a +:+ b +:+ c)).
  by rewrite IH.
Qed.

Lemma concat_app sep (l1 l2 : list string) :
  l1 ≠ [] → l2 ≠ [] →
  String.concat sep (l1 ++ l2)
    = String.concat sep l1 +:+ sep +:+ String.concat sep l2.
Proof.
  intros H1 H2. induction l1 as [|x l1 IH]; [done|].
  destruct l1 as [|y l1].
  - simpl. destruct l2; [done|]. done.
  - change (String.concat sep ((x :: y :: l1) ++ l2))
      with (x +:+ sep +:+ String.concat sep ((y :: l1) ++ l2)).
    rewrite IH by done.
    change (String.concat sep (x :: y :: l1))
      with (x +:+ sep +:+ String.concat sep (y :: l1)).
    by rewrite !append_assoc.
Qed.

(** X22: The empty descriptor prints as the empty string, and two non-empty
    lists of entries put together print as their prints joined by a comma
    and a space. *)
Theorem toString_app (d1 d2 : LocalDescriptor) :
  toString [] = EmptyString
  ∧ (d1 ≠ [] → d2 ≠ [] →
     toString (d1 ++ d2) = toString d1 +:+ ", " +:+ toString d2).
Proof.
  split; [reflexivity|]. intros H1 H2. unfold toString.
  rewrite fmap_app. apply concat_app.
  - by destruct d1.
  - by destruct d2.
Qed.

(** X23: The print does not tell descriptors apart: a descriptor of one entry
    and a descriptor of two entries, which [LocalDescriptorEqual] tells
    apart, print the same. *)
Theorem toString_not_injective :
  ∃ d1 d2 : LocalDescriptor,
    d1 ≠ d2 ∧ length d1 ≠ length d2 ∧ toString d1 = toString d2.
Proof.
  exists [("user", "alice, role=admin")],
         [("user", "alice"); ("role", "admin")].
  split_and!; [discriminate|simpl; lia|reflexivity].
Qed.

End ToString.
